(** * Voice interaction pipeline of the emotion-conversation client

    A shallow embedding of the React Native client:
    - [VoiceRecorder]  : src/mobile/src/components/VoiceRecorder.js
    - [App]            : App.js (round-trip orchestrator and session state)
    - [ChatScreen], [EmotionCharacterPanel], [ConversationHistory]
    and the properties of the design document checked against them. *)

From Stdlib Require Import ZArith Ascii String List Bool Lia.
From stdpp Require Import base option list gmap strings pretty.

#[local] Open Scope Z_scope.
#[local] Open Scope string_scope.
#[local] Open Scope list_scope.

(** Raw audio bytes (a Blob's content). *)
Definition Bytes := string.

(** What [onRecordingComplete] receives: on the web a [File] built from
    the recorded chunks, on a device a descriptor of the recorded file. *)
Inductive AudioData :=
| WebFile (name type : string) (parts : list Bytes)
| NativeFile (uri type name : string) (size : option Z).

Inductive Platform := web | native.

#[global] Instance Platform_eq_dec : EqDecision Platform.
Proof. solve_decision. Defined.

(** * The recording state machine (VoiceRecorder.js) *)
Module VoiceRecorder.

(** [MediaRecorder.state] *)
Inductive RecordingState := inactive | recording | paused.

#[global] Instance RecordingState_eq_dec : EqDecision RecordingState.
Proof. solve_decision. Defined.

(** Component state: the four [useState] cells, the four refs, and the
    interval timers that are alive in the runtime. *)
Record State := mkState {
  isRecording : bool;
  recordingTime : Z;
  isPaused : bool;
  permissionGranted : bool;
  recordingRef : bool;                      (* recordingRef.current is an expo Recording *)
  timerRef : option nat;                    (* timerRef.current *)
  mediaRecorderRef : option RecordingState; (* mediaRecorderRef.current and its .state *)
  audioChunksRef : list Bytes;
  intervals : list nat;                     (* live setInterval ids *)
  nextInterval : nat                        (* id the next setInterval returns *)
}.

Definition initial : State :=
  {| isRecording := false; recordingTime := 0; isPaused := false;
     permissionGranted := false; recordingRef := false; timerRef := None;
     mediaRecorderRef := None; audioChunksRef := [];
     intervals := []; nextInterval := 0 |}.

(** What the capture backend answers when a recording is finalized:
    whether [stopAndUnloadAsync] resolves, what [getURI] returns, the
    size [getInfoAsync] reports ([None] when it rejects), and the data of
    the final [dataavailable] event of a MediaRecorder. *)
Record Finalize := mkFinalize {
  unloaded : bool;
  finalUri : option string;
  fileInfo : option (option Z);
  lastChunk : Bytes
}.

Inductive Event :=
| RequestPermissions (granted : bool)
| StartRecording (granted created : bool)
| PauseRecording
| ResumeRecording
| StopRecording (fin : Finalize)
| Tick.

(** [clearInterval(timerRef.current)] under [if (timerRef.current)]. *)
Definition clearTimer (s : State) : list nat :=
  match timerRef s with
  | Some t => filter (fun i => i ≠ t) (intervals s)
  | None => intervals s
  end.

(** [timerRef.current = setInterval(..., 1000)] *)
Definition setTimer (live : list nat) (s : State) : State :=
  {| isRecording := isRecording s; recordingTime := recordingTime s;
     isPaused := isPaused s; permissionGranted := permissionGranted s;
     recordingRef := recordingRef s; timerRef := Some (nextInterval s);
     mediaRecorderRef := mediaRecorderRef s; audioChunksRef := audioChunksRef s;
     intervals := live ++ [nextInterval s]; nextInterval := S (nextInterval s) |}.

Definition requestPermissions (p : Platform) (granted : bool) (s : State) : State :=
  match p, granted with
  | web, true =>
      (* getUserMedia resolved: a new MediaRecorder, inactive *)
      {| isRecording := isRecording s; recordingTime := recordingTime s;
         isPaused := isPaused s; permissionGranted := true;
         recordingRef := recordingRef s; timerRef := timerRef s;
         mediaRecorderRef := Some inactive; audioChunksRef := audioChunksRef s;
         intervals := intervals s; nextInterval := nextInterval s |}
  | _, _ =>
      {| isRecording := isRecording s; recordingTime := recordingTime s;
         isPaused := isPaused s; permissionGranted := granted;
         recordingRef := recordingRef s; timerRef := timerRef s;
         mediaRecorderRef := mediaRecorderRef s; audioChunksRef := audioChunksRef s;
         intervals := intervals s; nextInterval := nextInterval s |}
  end.

(** The tail of [startRecording]: [setIsRecording(true)],
    [setRecordingTime(0)] and the new interval. *)
Definition beginRecording (s : State) : State :=
  setTimer (intervals s)
    {| isRecording := true; recordingTime := 0;
       isPaused := isPaused s; permissionGranted := permissionGranted s;
       recordingRef := recordingRef s; timerRef := timerRef s;
       mediaRecorderRef := mediaRecorderRef s; audioChunksRef := audioChunksRef s;
       intervals := intervals s; nextInterval := nextInterval s |}.

Definition startRecording (p : Platform) (granted created : bool) (s : State) : State :=
  if negb (permissionGranted s) then requestPermissions p granted s
  else match p with
  | web =>
      (* audioChunksRef.current = []; mediaRecorderRef.current.start() *)
      match mediaRecorderRef s with
      | Some inactive =>
          beginRecording
            {| isRecording := isRecording s; recordingTime := recordingTime s;
               isPaused := isPaused s; permissionGranted := permissionGranted s;
               recordingRef := recordingRef s; timerRef := timerRef s;
               mediaRecorderRef := Some recording; audioChunksRef := [];
               intervals := intervals s; nextInterval := nextInterval s |}
      | _ =>
          (* start() throws (InvalidStateError, or no recorder): caught *)
          {| isRecording := isRecording s; recordingTime := recordingTime s;
             isPaused := isPaused s; permissionGranted := permissionGranted s;
             recordingRef := recordingRef s; timerRef := timerRef s;
             mediaRecorderRef := mediaRecorderRef s; audioChunksRef := [];
             intervals := intervals s; nextInterval := nextInterval s |}
      end
  | native =>
      if created then
        beginRecording
          {| isRecording := isRecording s; recordingTime := recordingTime s;
             isPaused := isPaused s; permissionGranted := permissionGranted s;
             recordingRef := true; timerRef := timerRef s;
             mediaRecorderRef := mediaRecorderRef s; audioChunksRef := audioChunksRef s;
             intervals := intervals s; nextInterval := nextInterval s |}
      else s (* createAsync rejected: caught *)
  end.

(** [stopRecording]; the second component lists the calls of
    [onRecordingComplete] it causes. *)
Definition stopRecording (p : Platform) (fin : Finalize) (s : State)
  : State * list AudioData :=
  let live := clearTimer s in
  match p with
  | web =>
      match mediaRecorderRef s with
      | Some recording =>
          (* stop(): the last dataavailable event, then onstop *)
          let chunks := audioChunksRef s ++ [lastChunk fin] in
          ({| isRecording := false; recordingTime := recordingTime s;
              isPaused := false; permissionGranted := permissionGranted s;
              recordingRef := recordingRef s; timerRef := timerRef s;
              mediaRecorderRef := Some inactive; audioChunksRef := [];
              intervals := live; nextInterval := nextInterval s |},
           [WebFile "recording.webm" "audio/webm" chunks])
      | _ =>
          ({| isRecording := false; recordingTime := recordingTime s;
              isPaused := false; permissionGranted := permissionGranted s;
              recordingRef := recordingRef s; timerRef := timerRef s;
              mediaRecorderRef := mediaRecorderRef s; audioChunksRef := audioChunksRef s;
              intervals := live; nextInterval := nextInterval s |}, [])
      end
  | native =>
      let keep r :=
        {| isRecording := false; recordingTime := recordingTime s;
           isPaused := false; permissionGranted := permissionGranted s;
           recordingRef := r; timerRef := timerRef s;
           mediaRecorderRef := mediaRecorderRef s; audioChunksRef := audioChunksRef s;
           intervals := live; nextInterval := nextInterval s |} in
      if negb (recordingRef s) then (keep false, [])
      else if negb (unloaded fin) then (keep true, [])
      else match finalUri fin with
      | Some uri =>
          if decide (uri = "") then (keep false, [])
          else match fileInfo fin with
          | Some size => (keep false, [NativeFile uri "audio/m4a" "recording.m4a" size])
          | None => (keep false, [])
          end
      | None => (keep false, [])
      end
  end.

Definition pauseRecording (p : Platform) (s : State) : State :=
  {| isRecording := isRecording s; recordingTime := recordingTime s;
     isPaused := true; permissionGranted := permissionGranted s;
     recordingRef := recordingRef s; timerRef := timerRef s;
     mediaRecorderRef :=
       match p, mediaRecorderRef s with
       | web, Some recording => Some paused
       | _, m => m
       end;
     audioChunksRef := audioChunksRef s;
     intervals := clearTimer s; nextInterval := nextInterval s |}.

Definition resumeRecording (p : Platform) (s : State) : State :=
  setTimer (intervals s)
    {| isRecording := isRecording s; recordingTime := recordingTime s;
       isPaused := false; permissionGranted := permissionGranted s;
       recordingRef := recordingRef s; timerRef := timerRef s;
       mediaRecorderRef :=
         match p, mediaRecorderRef s with
         | web, Some paused => Some recording
         | _, m => m
         end;
       audioChunksRef := audioChunksRef s;
       intervals := intervals s; nextInterval := nextInterval s |}.

(** One second passes: every live interval runs
    [setRecordingTime((prev) => prev + 1)] once. *)
Definition tick (s : State) : State :=
  {| isRecording := isRecording s;
     recordingTime := fold_left (fun prev _ => prev + 1) (intervals s) (recordingTime s);
     isPaused := isPaused s; permissionGranted := permissionGranted s;
     recordingRef := recordingRef s; timerRef := timerRef s;
     mediaRecorderRef := mediaRecorderRef s; audioChunksRef := audioChunksRef s;
     intervals := intervals s; nextInterval := nextInterval s |}.

Definition step (p : Platform) (s : State) (e : Event) : State * list AudioData :=
  match e with
  | RequestPermissions g => (requestPermissions p g s, [])
  | StartRecording g c => (startRecording p g c s, [])
  | PauseRecording => (pauseRecording p s, [])
  | ResumeRecording => (resumeRecording p s, [])
  | StopRecording fin => stopRecording p fin s
  | Tick => (tick s, [])
  end.

(** The controls the component renders: which events the user can cause
    ([processing] is the [isProcessing] prop). *)
Definition enabled (processing : bool) (s : State) (e : Event) : bool :=
  match e with
  | RequestPermissions _ => negb (permissionGranted s)
  | StartRecording _ _ =>
      permissionGranted s && negb (isRecording s) && negb processing
  | PauseRecording => permissionGranted s && isRecording s && negb (isPaused s)
  | ResumeRecording => permissionGranted s && isRecording s && isPaused s
  | StopRecording _ => permissionGranted s && isRecording s
  | Tick => true
  end.

(** The states of the design: Idle, Recording, Paused. *)
Definition Idle (s : State) : Prop := isRecording s = false.
Definition Recording (s : State) : Prop := isRecording s = true ∧ isPaused s = false.
Definition Paused (s : State) : Prop := isRecording s = true ∧ isPaused s = true.

Fixpoint run (p : Platform) (s : State) (es : list Event) : State * list AudioData :=
  match es with
  | [] => (s, [])
  | e :: es' =>
      let '(s1, out1) := step p s e in
      let '(s2, out2) := run p s1 es' in
      (s2, out1 ++ out2)
  end.

(** Every event of [es] is offered by the rendered controls when it occurs. *)
Fixpoint legal (processing : bool) (p : Platform) (s : State) (es : list Event) : bool :=
  match es with
  | [] => true
  | e :: es' => enabled processing s e && legal processing p (step p s e).1 es'
  end.

(** States reached from the mounted component through rendered controls. *)
Inductive reachable (p : Platform) : State → Prop :=
| reach_initial : reachable p initial
| reach_step s e processing :
    reachable p s → enabled processing s e = true → reachable p (step p s e).1.

End VoiceRecorder.


(** * What crosses the boundary to the remote service *)
Module Api.

(** A JSON number, as the decimal literal [mantissa]e[exponent]. *)
Record Number := num { mantissa : Z; exponent : Z }.

Inductive Request :=
| PostVoice (audio : AudioData) (conversation_id : option string) (* CHAT_VOICE *)
| PostText (message : string) (conversation_id : option string)   (* CHAT_TEXT *)
| PostTts (text : string)                                         (* CHAT_TTS *)
| GetConversations (limit : Z)                                    (* HISTORY_CONVERSATIONS *)
| GetConversation (id : string)                                   (* HISTORY_CONVERSATION(id) *)
| DeleteConversation (id : string).

Record Response := mkResponse { ok : bool; status : Z }.

(** Body of the voice endpoint's answer. *)
Record VoiceReply := mkVoiceReply {
  transcribed_text : string;
  detected_emotion : option string;
  emotion_probability : option Number;
  emotion_top3 : option (list (string * Number));
  llm_response : string
}.

(** Body of the text endpoint's answer. *)
Record TextReply := mkTextReply { response : string }.

(** One stored message of a conversation. *)
Record StoredMessage := mkStoredMessage {
  id : Z;
  content : string;
  role : string;
  emotion : option string;
  stored_emotion_probability : option Number;
  created_at : string
}.

(** Body of a stored conversation. [messages] is [None] when the body
    has no [messages] array: [data.messages.map] then throws. *)
Record Conversation := mkConversation { messages : option (list StoredMessage) }.

(** One conversation summary of the history list. *)
Record Summary := mkSummary {
  summary_id : string;
  title : string;
  last_message : string;
  message_count : Z;
  updated_at : string
}.

End Api.

(** * Transcript messages and the UI surfaces *)

Record Message := mkMessage {
  id : Z;
  text : string;
  isUser : bool;
  emotion : option string;
  emotionProbability : option Api.Number;
  emotionTop3 : option (list (string * Api.Number));
  audioUrl : option string;
  timestamp : string
}.

(** The two panels: ['emotion'] (character) and ['chat']. *)
Inductive Panel := emotion_panel | chat_panel.

#[global] Instance Panel_eq_dec : EqDecision Panel.
Proof. solve_decision. Defined.

(** JavaScript truthiness of a nullable string. *)
Definition truthy (o : option string) : bool :=
  match o with
  | Some s => negb (String.eqb s "")
  | None => false
  end.

(** Address of a JavaScript array of messages. *)
Definition loc := positive.

(** * State of the client: App.js, ConversationHistory.js, and the arrays *)
Module App.
Record State := mkState {
  messages : loc;                   (* the array held by the messages cell *)
  isProcessing : bool;
  conversationId : option string;
  currentEmotion : option string;
  activePanel : Panel;
  lastUsedPanel : Panel;
  userTranscript : string;
  llmResponse : string;
  ttsAudioUrl : option string
}.
End App.

Module ConversationHistory.
Record State := mkState {
  conversations : list Api.Summary;
  isLoading : bool
}.
End ConversationHistory.

Record Store := mkStore {
  app : App.State;
  history : ConversationHistory.State;
  arrays : gmap loc (list Message);
  nextLoc : loc
}.

(** The array a reference denotes, and the transcript. *)
Definition arrayAt (s : Store) (r : loc) : list Message := default [] (arrays s !! r).
Definition transcript (s : Store) : list Message := arrayAt s (App.messages (app s)).

(** The store of a freshly rendered App: [useState([])] and the other
    initial values. *)
Definition initialStore : Store :=
  {| app := {| App.messages := 1%positive; App.isProcessing := false;
               App.conversationId := None; App.currentEmotion := None;
               App.activePanel := emotion_panel; App.lastUsedPanel := emotion_panel;
               App.userTranscript := ""; App.llmResponse := "";
               App.ttsAudioUrl := None |};
     history := {| ConversationHistory.conversations := [];
                   ConversationHistory.isLoading := false |};
     arrays := {[ 1%positive := [] ]};
     nextLoc := 2%positive |}.

(** * Asynchronous handlers as programs *)

(** State updates and output: calls whose result the code does not use. *)
Inductive Action :=
| SetIsProcessing (b : bool)
| SetConversationId (c : option string)
| SetCurrentEmotion (e : option string)
| SetActivePanel (p : Panel)
| SetLastUsedPanel (p : Panel)
| SetUserTranscript (t : string)
| SetLlmResponse (t : string)
| SetTtsAudioUrl (u : option string)
| SetMessages (arr : loc)                       (* setMessages(array) *)
| AppendMessage (m : Message)                   (* setMessages((prev) => [...prev, m]) *)
| ResolveMessage (target : Z) (r : Api.VoiceReply)
    (* setMessages((prev) => prev.map(msg => msg.id === target ? {...msg, ...} : msg)) *)
| SetConversations (cs : list Api.Summary)
| SetIsLoading (b : bool)
| ConsoleLog (line : string)
| ConsoleError (line : string)
| Alert (line : string).

(** Synchronous calls whose result the code uses. *)
Inductive Op : Type → Type :=
| DateNow : Op Z                                (* Date.now() *)
| IsoString : Op string                         (* new Date().toISOString() *)
| RandomSuffix : Op string                      (* Math.random().toString(36).substr(2, 9) *)
| CreateObjectURL (blob : Bytes) : Op string    (* URL.createObjectURL *)
| Confirm (question : string) : Op bool         (* window.confirm *)
| DocumentDirectory : Op string                 (* FileSystem.documentDirectory *)
| HistoryRef : Op bool            (* conversationHistoryRef.current?.loadConversations *)
| NewArray (l : list Message) : Op loc          (* a new array with these elements *)
| Reverse (arr : loc) : Op loc                  (* arr.reverse(): in place, returns arr *)
| ReadArray (arr : loc) : Op (list Message).    (* the elements of arr now *)

(** The points where a handler awaits. *)
Inductive Query :=
| Fetch (r : Api.Request)
| JsonVoice (resp : Api.Response)
| JsonText (resp : Api.Response)
| JsonConversation (resp : Api.Response)
| JsonConversations (resp : Api.Response)
| BlobOf (resp : Api.Response)
| TextOf (resp : Api.Response)
| ReadAsDataURL (blob : Bytes)
| WriteAsString (fileUri : string) (base64 : string).

(** What the awaited promise settles with; [None] is a rejection. The
    FileReader promise of the handlers has no rejecting path: it
    resolves with the base64 part of the data URL the reader ends with,
    or it does not settle at all (see [driveWith]). *)
Definition Answer (q : Query) : Type :=
  match q with
  | Fetch _ => option Api.Response
  | JsonVoice _ => option Api.VoiceReply
  | JsonText _ => option Api.TextReply
  | JsonConversation _ => option Api.Conversation
  | JsonConversations _ => option (list Api.Summary)
  | BlobOf _ => option Bytes
  | TextOf _ => option string
  | ReadAsDataURL _ => string
  | WriteAsString _ _ => option unit
  end.

Inductive Error :=
| NetworkError            (* fetch rejected *)
| HttpError (status : Z)  (* new Error(`HTTP error! status: ${response.status}`) *)
| BodyError               (* json(), blob() or text() rejected *)
| TypeError               (* a property of undefined is read *)
| FileError.              (* FileSystem.writeAsStringAsync rejected *)

Inductive Prog :=
| Ret                                             (* the function returns *)
| Throw (e : Error)
| Do (a : Action) (k : Prog)
| Call {A : Type} (o : Op A) (k : A → Prog)
| Await (q : Query) (k : Answer q → Prog)
| Spawn (p : Prog) (k : Prog).                    (* an async function called, not awaited *)

(** [try { body } catch (error) { handler }] *)
Fixpoint tryCatch (body : Prog) (handler : Error → Prog) : Prog :=
  match body with
  | Ret => Ret
  | Throw e => handler e
  | Do a k => Do a (tryCatch k handler)
  | Call o k => Call o (fun x => tryCatch (k x) handler)
  | Await q k => Await q (fun x => tryCatch (k x) handler)
  | Spawn p k => Spawn p (tryCatch k handler)
  end.

(** [p; q] *)
Fixpoint andThen (p q : Prog) : Prog :=
  match p with
  | Ret => q
  | Throw e => Throw e
  | Do a k => Do a (andThen k q)
  | Call o k => Call o (fun x => andThen (k x) q)
  | Await a k => Await a (fun x => andThen (k x) q)
  | Spawn p' k => Spawn p' (andThen k q)
  end.

(** [try { body } finally { final }] *)
Fixpoint tryFinally (body final : Prog) : Prog :=
  match body with
  | Ret => final
  | Throw e => andThen final (Throw e)
  | Do a k => Do a (tryFinally k final)
  | Call o k => Call o (fun x => tryFinally (k x) final)
  | Await q k => Await q (fun x => tryFinally (k x) final)
  | Spawn p k => Spawn p (tryFinally k final)
  end.

Declare Scope prog_scope.
Delimit Scope prog_scope with prog.
Bind Scope prog_scope with Prog.
Notation "a ;; k" := (Do a k%prog) (at level 100, k at level 200, right associativity) : prog_scope.
Notation "'let*' x ':=' o 'in' k" := (Call o (fun x => k%prog))
  (at level 10, x name, o at level 99, k at level 200) : prog_scope.
Notation "'await*' x ':=' q 'in' k" := (Await q (fun x => k%prog))
  (at level 10, x name, q at level 99, k at level 200) : prog_scope.

(** ** Effect of the state updates *)

Definition withApp (f : App.State → App.State) (s : Store) : Store :=
  {| app := f (app s); history := history s; arrays := arrays s; nextLoc := nextLoc s |}.

Definition withHistory (f : ConversationHistory.State → ConversationHistory.State)
  (s : Store) : Store :=
  {| app := app s; history := f (history s); arrays := arrays s; nextLoc := nextLoc s |}.

Definition setAppMessages (r : loc) (a : App.State) : App.State :=
  App.mkState r (App.isProcessing a) (App.conversationId a) (App.currentEmotion a)
    (App.activePanel a) (App.lastUsedPanel a) (App.userTranscript a)
    (App.llmResponse a) (App.ttsAudioUrl a).

Definition setAppIsProcessing (b : bool) (a : App.State) : App.State :=
  App.mkState (App.messages a) b (App.conversationId a) (App.currentEmotion a)
    (App.activePanel a) (App.lastUsedPanel a) (App.userTranscript a)
    (App.llmResponse a) (App.ttsAudioUrl a).

Definition setAppConversationId (c : option string) (a : App.State) : App.State :=
  App.mkState (App.messages a) (App.isProcessing a) c (App.currentEmotion a)
    (App.activePanel a) (App.lastUsedPanel a) (App.userTranscript a)
    (App.llmResponse a) (App.ttsAudioUrl a).

Definition setAppCurrentEmotion (e : option string) (a : App.State) : App.State :=
  App.mkState (App.messages a) (App.isProcessing a) (App.conversationId a) e
    (App.activePanel a) (App.lastUsedPanel a) (App.userTranscript a)
    (App.llmResponse a) (App.ttsAudioUrl a).

Definition setAppActivePanel (p : Panel) (a : App.State) : App.State :=
  App.mkState (App.messages a) (App.isProcessing a) (App.conversationId a)
    (App.currentEmotion a) p (App.lastUsedPanel a) (App.userTranscript a)
    (App.llmResponse a) (App.ttsAudioUrl a).

Definition setAppLastUsedPanel (p : Panel) (a : App.State) : App.State :=
  App.mkState (App.messages a) (App.isProcessing a) (App.conversationId a)
    (App.currentEmotion a) (App.activePanel a) p (App.userTranscript a)
    (App.llmResponse a) (App.ttsAudioUrl a).

Definition setAppUserTranscript (t : string) (a : App.State) : App.State :=
  App.mkState (App.messages a) (App.isProcessing a) (App.conversationId a)
    (App.currentEmotion a) (App.activePanel a) (App.lastUsedPanel a) t
    (App.llmResponse a) (App.ttsAudioUrl a).

Definition setAppLlmResponse (t : string) (a : App.State) : App.State :=
  App.mkState (App.messages a) (App.isProcessing a) (App.conversationId a)
    (App.currentEmotion a) (App.activePanel a) (App.lastUsedPanel a)
    (App.userTranscript a) t (App.ttsAudioUrl a).

Definition setAppTtsAudioUrl (u : option string) (a : App.State) : App.State :=
  App.mkState (App.messages a) (App.isProcessing a) (App.conversationId a)
    (App.currentEmotion a) (App.activePanel a) (App.lastUsedPanel a)
    (App.userTranscript a) (App.llmResponse a) u.

(** Allocation of a new array. *)
Definition allocArray (l : list Message) (s : Store) : Store * loc :=
  ({| app := app s; history := history s;
      arrays := <[nextLoc s := l]> (arrays s);
      nextLoc := Pos.succ (nextLoc s) |}, nextLoc s).

(** In-place replacement of the elements of an array. *)
Definition writeArray (r : loc) (l : list Message) (s : Store) : Store :=
  {| app := app s; history := history s;
     arrays := <[r := l]> (arrays s); nextLoc := nextLoc s |}.

(** A state update with an updater function: React calls it on the
    current array and stores the array it returns. *)
Definition updateMessages (f : list Message → list Message) (s : Store) : Store :=
  let '(s', r) := allocArray (f (transcript s)) s in
  withApp (setAppMessages r) s'.

(** [{...msg, text, emotion, emotionProbability, emotionTop3}] *)
Definition resolved (r : Api.VoiceReply) (msg : Message) : Message :=
  {| id := id msg;
     text := Api.transcribed_text r;
     isUser := isUser msg;
     emotion := Api.detected_emotion r;
     emotionProbability := Api.emotion_probability r;
     emotionTop3 := Api.emotion_top3 r;
     audioUrl := audioUrl msg;
     timestamp := timestamp msg |}.

Definition apply (a : Action) (s : Store) : Store :=
  match a with
  | SetIsProcessing b => withApp (setAppIsProcessing b) s
  | SetConversationId c => withApp (setAppConversationId c) s
  | SetCurrentEmotion e => withApp (setAppCurrentEmotion e) s
  | SetActivePanel p => withApp (setAppActivePanel p) s
  | SetLastUsedPanel p => withApp (setAppLastUsedPanel p) s
  | SetUserTranscript t => withApp (setAppUserTranscript t) s
  | SetLlmResponse t => withApp (setAppLlmResponse t) s
  | SetTtsAudioUrl u => withApp (setAppTtsAudioUrl u) s
  | SetMessages r => withApp (setAppMessages r) s
  | AppendMessage m => updateMessages (fun prev => prev ++ [m]) s
  | ResolveMessage target r =>
      updateMessages
        (fun prev => map (fun msg => if decide (id msg = target) then resolved r msg else msg) prev) s
  | SetConversations cs =>
      withHistory (fun h => ConversationHistory.mkState cs (ConversationHistory.isLoading h)) s
  | SetIsLoading b =>
      withHistory (fun h => ConversationHistory.mkState (ConversationHistory.conversations h) b) s
  | ConsoleLog _ | ConsoleError _ | Alert _ => s
  end.

(** What the runtime answers to the synchronous calls of one handler run. *)
Record Ambient := mkAmbient {
  dateNow : Z;
  isoString : string;
  randomSuffix : string;
  objectURL : Bytes → string;
  confirmed : bool;
  documentDirectory : string;
  historyMounted : bool   (* conversationHistoryRef.current exposes loadConversations *)
}.

Definition perform {A : Type} (amb : Ambient) (o : Op A) (s : Store) : Store * A :=
  match o with
  | DateNow => (s, dateNow amb)
  | IsoString => (s, isoString amb)
  | RandomSuffix => (s, randomSuffix amb)
  | CreateObjectURL blob => (s, objectURL amb blob)
  | Confirm _ => (s, confirmed amb)
  | DocumentDirectory => (s, documentDirectory amb)
  | HistoryRef => (s, historyMounted amb)
  | NewArray l => allocArray l s
  | Reverse r => (writeArray r (rev (arrayAt s r)) s, r)
  | ReadArray r => (s, arrayAt s r)
  end.

(** ** Running a handler up to its suspensions *)

(** A suspended handler: the promise it awaits and what it does next. *)
Record Task := mkTask { awaiting : Query; resume : Answer awaiting → Prog }.

Inductive Ev :=
| Did (a : Action)       (* a state update or an output *)
| Requested (q : Query). (* a promise is created and awaited *)

Record Outcome := mkOutcome {
  store : Store;
  suspended : list Task;
  log : list Ev
}.

(** Run the synchronous code of [p]: up to its end or its first [await];
    a spawned call runs its own synchronous part in between. *)
Fixpoint exec (amb : Ambient) (p : Prog) (s : Store) : Outcome :=
  match p with
  | Ret => mkOutcome s [] []
  | Throw _ => mkOutcome s [] []
  | Do a k =>
      let r := exec amb k (apply a s) in
      mkOutcome (store r) (suspended r) (Did a :: log r)
  | Call o k =>
      let r := perform amb o s in exec amb (k r.2) r.1
  | Await q k => mkOutcome s [mkTask q k] [Requested q]
  | Spawn p' k =>
      let r1 := exec amb p' s in
      let r2 := exec amb k (store r1) in
      mkOutcome (store r2) (suspended r1 ++ suspended r2) (log r1 ++ log r2)
  end.

(** The event loop: the store, the suspended handlers, and what has
    happened so far. *)
Record Loop := mkLoop {
  current : Store;
  pending : list Task;
  history_log : list Ev
}.

Definition absorb (l : Loop) (rest : list Task) (r : Outcome) : Loop :=
  {| current := store r; pending := rest ++ suspended r;
     history_log := history_log l ++ log r |}.

(** A handler is called. *)
Definition invoke (amb : Ambient) (p : Prog) (l : Loop) : Loop :=
  absorb l (pending l) (exec amb p (current l)).

(** The promise awaited by the [i]-th suspended handler settles with what
    [answer] says, and that handler runs on. *)
Definition settle (amb : Ambient) (i : nat) (answer : ∀ q, Answer q) (l : Loop) : Loop :=
  match pending l !! i with
  | Some t =>
      absorb l (delete i (pending l))
        (exec amb (resume t (answer (awaiting t))) (current l))
  | None => l
  end.

(** * The handlers *)

(** [await fetch(...)]: a rejected promise throws at the await. *)
Definition fetch (r : Api.Request) (k : Api.Response → Prog) : Prog :=
  Await (Fetch r) (fun a => match a with Some resp => k resp | None => Throw NetworkError end).


(** [await response.json()] and the other body readers. For the two
    reply bodies [None] also stands for a body that is read but is not
    an object: the handlers read a property of it before they do
    anything else, and that read throws into the same [catch]. *)
Definition jsonVoice (resp : Api.Response) (k : Api.VoiceReply → Prog) : Prog :=
  Await (JsonVoice resp) (fun a => match a with Some d => k d | None => Throw BodyError end).

Definition jsonText (resp : Api.Response) (k : Api.TextReply → Prog) : Prog :=
  Await (JsonText resp) (fun a => match a with Some d => k d | None => Throw BodyError end).

Definition jsonConversation (resp : Api.Response) (k : Api.Conversation → Prog) : Prog :=
  Await (JsonConversation resp)
    (fun a => match a with Some d => k d | None => Throw BodyError end).

Definition jsonConversations (resp : Api.Response) (k : list Api.Summary → Prog) : Prog :=
  Await (JsonConversations resp)
    (fun a => match a with Some d => k d | None => Throw BodyError end).

Definition blob (resp : Api.Response) (k : Bytes → Prog) : Prog :=
  Await (BlobOf resp) (fun a => match a with Some d => k d | None => Throw BodyError end).

Definition responseText (resp : Api.Response) (k : string → Prog) : Prog :=
  Await (TextOf resp) (fun a => match a with Some d => k d | None => Throw BodyError end).

Definition writeAsStringAsync (fileUri base64 : string) (k : Prog) : Prog :=
  Await (WriteAsString fileUri base64)
    (fun a => match a with Some _ => k | None => Throw FileError end).

Module HistoryHandlers.

(** [loadConversations] *)
Definition loadConversations : Prog :=
  (SetIsLoading true ;;
   tryFinally
     (tryCatch
        (fetch (Api.GetConversations 50) (fun response =>
           if Api.ok response then
             jsonConversations response (fun data => SetConversations data ;; Ret)
           else Ret))
        (fun error => ConsoleError "Error loading conversations:" ;; Ret))
     (SetIsLoading false ;; Ret))%prog.

(** [deleteConversation]; [conversations], [currentConversationId] and
    [onNewConversation] are what its closure holds. *)
Definition deleteConversation (conversations : list Api.Summary)
  (currentConversationId : option string) (onNewConversation : Prog)
  (conversationId : string) : Prog :=
  (ConsoleLog "Delete button clicked for conversation:" ;;
   let* confirmed := Confirm "이 대화를 삭제하시겠습니까?" in
   if negb confirmed then ConsoleLog "Delete cancelled" ;; Ret
   else
     ConsoleLog "Delete confirmed, calling API..." ;;
     tryCatch
       (ConsoleLog "DELETE URL:" ;;
        fetch (Api.DeleteConversation conversationId) (fun response =>
          ConsoleLog "Delete response status:" ;;
          if Api.ok response then
            ConsoleLog "Delete successful, updating UI..." ;;
            SetConversations
              (filter (fun c => Api.summary_id c ≠ conversationId) conversations) ;;
            if decide (currentConversationId = Some conversationId)
            then onNewConversation else Ret
          else
            responseText response (fun errorText =>
              ConsoleError "Delete failed:" ;;
              Alert "대화 삭제에 실패했습니다." ;;
              Ret)))
       (fun error =>
          ConsoleError "Error deleting conversation:" ;;
          Alert "대화 삭제 중 오류가 발생했습니다: " ;;
          Ret))%prog.

End HistoryHandlers.

Module AppHandlers.

Definition processingText : string := "음성 메시지를 처리 중입니다...".

Definition errorText : string :=
  "죄송합니다. 메시지 처리 중 오류가 발생했습니다. 다시 시도해주세요.".

(** [startNewConversation] *)
Definition startNewConversation : Prog :=
  (let* now := DateNow in
   let* suffix := RandomSuffix in
   SetConversationId (Some ("conv_" +:+ pretty now +:+ "_" +:+ suffix)) ;;
   let* empty := NewArray [] in
   SetMessages empty ;;
   SetCurrentEmotion None ;;
   Ret)%prog.

(** The display format of a stored message. *)
Definition displayMessage (msg : Api.StoredMessage) : Message :=
  {| id := Api.id msg;
     text := Api.content msg;
     isUser := String.eqb (Api.role msg) "user";
     emotion := Api.emotion msg;
     emotionProbability := Api.stored_emotion_probability msg;
     emotionTop3 := None;
     audioUrl := None;
     timestamp := Api.created_at msg |}.

(** [loadConversation] *)
Definition loadConversation (convId : string) : Prog :=
  tryCatch
    (fetch (Api.GetConversation convId) (fun response =>
       if Api.ok response then
         jsonConversation response (fun data =>
           SetConversationId (Some convId) ;;
           match Api.messages data with
           | None => Throw TypeError   (* data.messages.map *)
           | Some stored =>
               let* displayMessages := NewArray (map displayMessage stored) in
               SetMessages displayMessages ;;
               let* reversed := Reverse displayMessages in
               let* elements := ReadArray reversed in
               match find (fun m => isUser m && truthy (emotion m)) elements with
               | Some lastUserMessage => SetCurrentEmotion (emotion lastUserMessage) ;; Ret
               | None => Ret
               end
           end)%prog
       else Ret))
    (fun error =>
       ConsoleError "Error loading conversation:" ;;
       Alert "대화를 불러오는 중 오류가 발생했습니다." ;;
       Ret)%prog.

(** The block that turns the answer of the speech request into
    [audioUrl] (the same code in both message handlers). *)
Definition speechUrl (platform : Platform) (ttsResponse : Api.Response)
  (k : option string → Prog) : Prog :=
  if Api.ok ttsResponse then
    blob ttsResponse (fun audioBlob =>
      match platform with
      | web =>
          (let* url := CreateObjectURL audioBlob in k (Some url))%prog
      | native =>
          (await* base64data := ReadAsDataURL audioBlob in
           let* directory := DocumentDirectory in
           let* now := DateNow in
           let fileUri := directory +:+ "tts_" +:+ pretty now +:+ ".wav" in
           writeAsStringAsync fileUri base64data (k (Some fileUri)))%prog
      end)
  else k None.

(** [conversationHistoryRef.current?.loadConversations] is called when present. *)
Definition refreshHistory : Prog :=
  (let* present := HistoryRef in
   if present then Spawn HistoryHandlers.loadConversations Ret else Ret)%prog.

(** The message of the [catch] block. *)
Definition errorMessage (now : Z) (iso : string) : Message :=
  {| id := now + 2; text := errorText; isUser := false;
     emotion := None; emotionProbability := None; emotionTop3 := None;
     audioUrl := None; timestamp := iso |}.

Definition assistantMessage (now : Z) (iso : string) (reply : string)
  (url : option string) : Message :=
  {| id := now + 1; text := reply; isUser := false;
     emotion := None; emotionProbability := None; emotionTop3 := None;
     audioUrl := url; timestamp := iso |}.

Definition userMessage (now : Z) (iso : string) (content : string) : Message :=
  {| id := now; text := content; isUser := true;
     emotion := None; emotionProbability := None; emotionTop3 := None;
     audioUrl := None; timestamp := iso |}.

Definition appendError (console : string) : Prog :=
  (ConsoleError console ;;
   let* now := DateNow in
   let* iso := IsoString in
   AppendMessage (errorMessage now iso) ;;
   Ret)%prog.

(** [handleVoiceMessage]; [conversationId] is the value its closure holds. *)
Definition handleVoiceMessage (platform : Platform)
  (conversationId : option string) (audioData : AudioData) : Prog :=
  (SetIsProcessing true ;;
   SetLastUsedPanel emotion_panel ;;
   SetUserTranscript processingText ;;
   SetLlmResponse "" ;;
   SetTtsAudioUrl None ;;
   tryFinally
     (tryCatch
        (let* now := DateNow in
         let* iso := IsoString in
         let placeholder := userMessage now iso processingText in
         AppendMessage placeholder ;;
         ConsoleLog "Sending audio:" ;;
         fetch (Api.PostVoice audioData
                  (if truthy conversationId then conversationId else None))
           (fun response =>
            if negb (Api.ok response) then Throw (HttpError (Api.status response))
            else jsonVoice response (fun data =>
              SetUserTranscript (Api.transcribed_text data) ;;
              SetCurrentEmotion (Api.detected_emotion data) ;;
              ResolveMessage (id placeholder) data ;;
              fetch (Api.PostTts (Api.llm_response data)) (fun ttsResponse =>
                speechUrl platform ttsResponse (fun audioUrl =>
                  SetLlmResponse (Api.llm_response data) ;;
                  SetTtsAudioUrl audioUrl ;;
                  let* now' := DateNow in
                  let* iso' := IsoString in
                  AppendMessage (assistantMessage now' iso' (Api.llm_response data) audioUrl) ;;
                  refreshHistory)))))
        (fun error => appendError "Error processing voice message:"))
     (SetIsProcessing false ;; Ret))%prog.

(** [handleTextMessage] *)
Definition handleTextMessage (platform : Platform)
  (conversationId : option string) (textMessage : string) : Prog :=
  (SetIsProcessing true ;;
   SetLastUsedPanel chat_panel ;;
   tryFinally
     (tryCatch
        (let* now := DateNow in
         let* iso := IsoString in
         AppendMessage (userMessage now iso textMessage) ;;
         fetch (Api.PostText textMessage conversationId) (fun response =>
           if negb (Api.ok response) then Throw (HttpError (Api.status response))
           else jsonText response (fun data =>
             fetch (Api.PostTts (Api.response data)) (fun ttsResponse =>
               speechUrl platform ttsResponse (fun audioUrl =>
                 let* now' := DateNow in
                 let* iso' := IsoString in
                 AppendMessage (assistantMessage now' iso' (Api.response data) audioUrl) ;;
                 refreshHistory)))))
        (fun error => appendError "Error processing text message:"))
     (SetIsProcessing false ;; Ret))%prog.

End AppHandlers.

(** * Running an exchange against the outside world *)

(** What the world does at each step of the event loop: the answers of
    the runtime to synchronous calls, and how an awaited promise settles. *)
Record World := mkWorld {
  ambientAt : nat → Ambient;
  answerAt : nat → ∀ q, Answer q
}.

(** Settle the oldest awaited promise, again and again, from step [n] on,
    until no handler is suspended or [fuel] runs out. *)
Fixpoint drive (fuel : nat) (w : World) (n : nat) (l : Loop) : Loop :=
  match fuel with
  | O => l
  | S fuel' =>
      match pending l with
      | [] => l
      | _ :: _ => drive fuel' w (S n) (settle (ambientAt w n) 0 (answerAt w n) l)
      end
  end.

(** A handler called at step 0 in store [s] with nothing else in flight,
    and run to its end. No handler awaits more than eight times, the
    history refresh it spawns included. *)
Definition exchange (w : World) (p : Prog) (s : Store) : Loop :=
  drive 8 w 1 (invoke (ambientAt w 0) p (mkLoop s [] [])).

(** A promise need not settle. [settles q] says whether the promise
    awaited at [q] ever does: the FileReader promise of the message
    handlers is resolved from [onloadend] and from nowhere else, and
    after a failed read that callback throws before it resolves. *)

(** The position of the oldest suspended handler whose promise settles. *)
Fixpoint oldestSettling (settles : Query → bool) (ts : list Task) : option nat :=
  match ts with
  | [] => None
  | t :: ts' =>
      if settles (awaiting t) then Some 0%nat
      else option_map S (oldestSettling settles ts')
  end.

(** [drive], where only the promises that settle are settled. *)
Fixpoint driveWith (settles : Query → bool) (fuel : nat) (w : World) (n : nat)
  (l : Loop) : Loop :=
  match fuel with
  | O => l
  | S fuel' =>
      match oldestSettling settles (pending l) with
      | None => l
      | Some i =>
          driveWith settles fuel' w (S n) (settle (ambientAt w n) i (answerAt w n) l)
      end
  end.

Definition exchangeWith (settles : Query → bool) (w : World) (p : Prog) (s : Store) : Loop :=
  driveWith settles 8 w 1 (invoke (ambientAt w 0) p (mkLoop s [] [])).

(** The network requests of a log, in order. *)
Definition requests (l : list Ev) : list Api.Request :=
  omap (fun e => match e with Requested (Fetch r) => Some r | _ => None end) l.

(** The messages a log appends, in order. *)
Definition appended (l : list Ev) : list Message :=
  omap (fun e => match e with Did (AppendMessage m) => Some m | _ => None end) l.

(** * The rendered client: what each surface receives and offers *)

(** [String.prototype.trim], for the ASCII white space characters. *)
Definition isSpace (a : Ascii.ascii) : bool :=
  existsb (Ascii.eqb a) [" "; "009"; "010"; "011"; "012"; "013"]%char.

Fixpoint trimStart (s : string) : string :=
  match s with
  | EmptyString => EmptyString
  | String a rest => if isSpace a then trimStart rest else s
  end.

Fixpoint trimEnd (s : string) : string :=
  match s with
  | EmptyString => EmptyString
  | String a rest =>
      match trimEnd rest with
      | EmptyString => if isSpace a then EmptyString else String a EmptyString
      | rest' => String a rest'
      end
  end.

Definition trim (s : string) : string := trimEnd (trimStart s).

Module EmotionCharacterPanel.
(** The props App.js passes to the character panel. *)
Record Props := mkProps {
  isProcessing : bool;
  currentEmotion : option string;
  userTranscript : string;
  llmResponse : string;
  audioUrl : option string;
  isActive : bool
}.
End EmotionCharacterPanel.

Module ChatScreen.
(** The props App.js passes to the chat screen. *)
Record Props := mkProps {
  messages : list Message;
  isProcessing : bool
}.
End ChatScreen.

Module Client.

Definition emotionCharacterPanelProps (s : Store) : EmotionCharacterPanel.Props :=
  let a := app s in
  {| EmotionCharacterPanel.isProcessing :=
       if decide (App.lastUsedPanel a = emotion_panel) then App.isProcessing a else false;
     EmotionCharacterPanel.currentEmotion := App.currentEmotion a;
     EmotionCharacterPanel.userTranscript :=
       if decide (App.lastUsedPanel a = emotion_panel) then App.userTranscript a else "";
     EmotionCharacterPanel.llmResponse :=
       if decide (App.lastUsedPanel a = emotion_panel) then App.llmResponse a else "";
     EmotionCharacterPanel.audioUrl :=
       if decide (App.lastUsedPanel a = emotion_panel) then App.ttsAudioUrl a else None;
     EmotionCharacterPanel.isActive :=
       bool_decide (App.activePanel a = emotion_panel) |}.

Definition chatScreenProps (s : Store) : ChatScreen.Props :=
  {| ChatScreen.messages := transcript s;
     ChatScreen.isProcessing := App.isProcessing (app s) |}.

(** The transient values of an exchange as a surface displays them: the
    live transcript, the live reply, and the live reply audio. *)
Record Transient := mkTransient {
  liveTranscript : string;
  liveReply : string;
  liveAudio : option string
}.

Definition nothing : Transient := mkTransient "" "" None.

(** The character panel renders the three values of its props; the chat
    screen is passed none of them. *)
Definition rendered (surface : Panel) (s : Store) : Transient :=
  match surface with
  | emotion_panel =>
      let props := emotionCharacterPanelProps s in
      mkTransient (EmotionCharacterPanel.userTranscript props)
        (EmotionCharacterPanel.llmResponse props)
        (EmotionCharacterPanel.audioUrl props)
  | chat_panel => nothing
  end.

(** The [isProcessing] prop of the recorder on a surface. *)
Definition recorderProcessing (surface : Panel) (s : Store) : bool :=
  match surface with
  | emotion_panel => EmotionCharacterPanel.isProcessing (emotionCharacterPanelProps s)
  | chat_panel => ChatScreen.isProcessing (chatScreenProps s)
  end.

Record State := mkState {
  loop : Loop;
  characterRecorder : VoiceRecorder.State;   (* in EmotionCharacterPanel *)
  chatRecorder : VoiceRecorder.State;        (* in ChatScreen *)
  textInput : string;                        (* ChatScreen *)
  (* the conversation id seen by the [onRecordingComplete] that the
     MediaRecorder's onstop handler of each recorder has captured *)
  characterOnstop : option string;
  chatOnstop : option string;
  (* the surface through which the latest exchange was submitted *)
  initiator : option Panel
}.

Definition initial : State :=
  {| loop := mkLoop initialStore [] [];
     characterRecorder := VoiceRecorder.initial;
     chatRecorder := VoiceRecorder.initial;
     textInput := "";
     characterOnstop := None;
     chatOnstop := None;
     initiator := None |}.

Definition recorderOf (surface : Panel) (c : State) : VoiceRecorder.State :=
  match surface with
  | emotion_panel => characterRecorder c
  | chat_panel => chatRecorder c
  end.

Definition onstopOf (surface : Panel) (c : State) : option string :=
  match surface with
  | emotion_panel => characterOnstop c
  | chat_panel => chatOnstop c
  end.

Inductive Event :=
| Recorder (surface : Panel) (e : VoiceRecorder.Event)
| ChangeText (t : string)            (* onChangeText={setTextInput} *)
| PressSend                          (* handleTextSubmit *)
| ShowPanel (p : Panel)              (* the arrow buttons *)
| SelectConversation (id : string)   (* onSelectConversation *)
| PressDelete (id : string)          (* deleteConversation *)
| PressNewConversation               (* onNewConversation *)
| Settle (i : nat) (answer : ∀ q, Answer q).

(** On a narrow window only the active panel is displayed. *)
Definition visible (wide : bool) (surface : Panel) (c : State) : bool :=
  wide || bool_decide (App.activePanel (app (current (loop c))) = surface).

(** The controls that are displayed and not disabled. *)
Definition enabled (wide : bool) (c : State) (e : Event) : bool :=
  let s := current (loop c) in
  match e with
  | Recorder surface e' =>
      visible wide surface c
      && VoiceRecorder.enabled (recorderProcessing surface s) (recorderOf surface c) e'
  | ChangeText _ =>
      visible wide chat_panel c && negb (ChatScreen.isProcessing (chatScreenProps s))
  | PressSend =>
      visible wide chat_panel c
      && negb (String.eqb (trim (textInput c)) "")
      && negb (ChatScreen.isProcessing (chatScreenProps s))
  | ShowPanel _ => true
  | SelectConversation _ | PressDelete _ | PressNewConversation =>
      visible wide chat_panel c
  | Settle i _ => bool_decide (i < length (pending (loop c)))%nat
  end.

Definition withLoop (l : Loop) (c : State) : State :=
  {| loop := l; characterRecorder := characterRecorder c;
     chatRecorder := chatRecorder c; textInput := textInput c;
     characterOnstop := characterOnstop c; chatOnstop := chatOnstop c;
     initiator := initiator c |}.

Definition submitted (surface : Panel) (l : Loop) (c : State) : State :=
  {| loop := l; characterRecorder := characterRecorder c;
     chatRecorder := chatRecorder c; textInput := textInput c;
     characterOnstop := characterOnstop c; chatOnstop := chatOnstop c;
     initiator := Some surface |}.

Definition withRecorder (surface : Panel) (r : VoiceRecorder.State)
  (onstop : option string) (c : State) : State :=
  match surface with
  | emotion_panel =>
      {| loop := loop c; characterRecorder := r; chatRecorder := chatRecorder c;
         textInput := textInput c; characterOnstop := onstop;
         chatOnstop := chatOnstop c; initiator := initiator c |}
  | chat_panel =>
      {| loop := loop c; characterRecorder := characterRecorder c; chatRecorder := r;
         textInput := textInput c; characterOnstop := characterOnstop c;
         chatOnstop := onstop; initiator := initiator c |}
  end.

(** Each recording handed to [onRecordingComplete] calls
    [handleVoiceMessage]: both surfaces pass it as [onVoiceMessage]. *)
Definition deliver (platform : Platform) (amb : Ambient) (surface : Panel)
  (c : State) (audio : AudioData) : State :=
  let conversationId :=
    match platform with
    | web => onstopOf surface c
    | native => App.conversationId (app (current (loop c)))
    end in
  submitted surface
    (invoke amb (AppHandlers.handleVoiceMessage platform conversationId audio) (loop c)) c.

(** [handleTextSubmit] of the chat screen. *)
Definition handleTextSubmit (platform : Platform) (amb : Ambient) (c : State) : State :=
  let s := current (loop c) in
  if negb (String.eqb (trim (textInput c)) "")
     && negb (ChatScreen.isProcessing (chatScreenProps s))
  then
    let l := invoke amb
               (AppHandlers.handleTextMessage platform (App.conversationId (app s))
                  (trim (textInput c)))
               (loop c) in
    {| loop := l; characterRecorder := characterRecorder c;
       chatRecorder := chatRecorder c; textInput := "";
       characterOnstop := characterOnstop c; chatOnstop := chatOnstop c;
       initiator := Some chat_panel |}
  else c.

Definition step (platform : Platform) (amb : Ambient) (c : State) (e : Event) : State :=
  let s := current (loop c) in
  match e with
  | Recorder surface e' =>
      let '(r, out) := VoiceRecorder.step platform (recorderOf surface c) e' in
      let onstop :=
        match platform, e' with
        | web, VoiceRecorder.RequestPermissions true => App.conversationId (app s)
        | _, _ => onstopOf surface c
        end in
      fold_left (deliver platform amb surface) out (withRecorder surface r onstop c)
  | ChangeText t =>
      {| loop := loop c; characterRecorder := characterRecorder c;
         chatRecorder := chatRecorder c; textInput := t;
         characterOnstop := characterOnstop c; chatOnstop := chatOnstop c;
         initiator := initiator c |}
  | PressSend => handleTextSubmit platform amb c
  | ShowPanel p => withLoop (invoke amb (Do (SetActivePanel p) Ret) (loop c)) c
  | SelectConversation id =>
      withLoop (invoke amb (AppHandlers.loadConversation id) (loop c)) c
  | PressDelete id =>
      withLoop
        (invoke amb
           (HistoryHandlers.deleteConversation
              (ConversationHistory.conversations (history s))
              (App.conversationId (app s))
              AppHandlers.startNewConversation id)
           (loop c)) c
  | PressNewConversation =>
      withLoop (invoke amb AppHandlers.startNewConversation (loop c)) c
  | Settle i answer => withLoop (settle amb i answer (loop c)) c
  end.

(** The events of a list, taken one per step of the ambient runtime. *)
Fixpoint run (platform : Platform) (amb : nat → Ambient) (n : nat)
  (c : State) (es : list Event) : State :=
  match es with
  | [] => c
  | e :: es' => run platform amb (S n) (step platform (amb n) c e) es'
  end.

(** Every event of the list is offered when it occurs. *)
Fixpoint offered (wide : bool) (platform : Platform) (amb : nat → Ambient) (n : nat)
  (c : State) (es : list Event) : bool :=
  match es with
  | [] => true
  | e :: es' =>
      enabled wide c e && offered wide platform amb (S n) (step platform (amb n) c e) es'
  end.

(** The exchanges whose reply request is outstanding. *)
Definition outstanding (c : State) : list Api.Request :=
  omap (fun t => match awaiting t with
                 | Fetch (Api.PostVoice a i) => Some (Api.PostVoice a i)
                 | Fetch (Api.PostText m i) => Some (Api.PostText m i)
                 | _ => None
                 end) (pending (loop c)).

End Client.

(** * Notions used to state the properties *)

(** ** Recording state machine *)
Module RecorderSpec.
Import VoiceRecorder.

(** Exactly the current timer is alive while Recording, none otherwise;
    an idle recorder is never flagged as paused, and recording implies
    the permission. *)
Definition timer_inv (s : State) : Prop :=
  (isRecording s = false → isPaused s = false) ∧
  (isRecording s = true → permissionGranted s = true) ∧
  match isRecording s && negb (isPaused s), timerRef s with
  | true, Some t => intervals s = [t]
  | true, None => False
  | false, _ => intervals s = []
  end.

(** The behaviour of the elapsed-seconds counter at a state [s]. *)
Definition elapsed_spec (p : Platform) (s : State) : Prop :=
  (* a ticker second adds one while Recording, nothing otherwise *)
  (Recording s → recordingTime (tick s) = recordingTime s + 1) ∧
  (¬ Recording s → recordingTime (tick s) = recordingTime s) ∧
  (* pause keeps the value and stops the ticker *)
  (Recording s →
     Paused (pauseRecording p s) ∧
     recordingTime (pauseRecording p s) = recordingTime s ∧
     recordingTime (tick (pauseRecording p s)) = recordingTime s) ∧
  (* resume continues from the retained value *)
  (Paused s →
     Recording (resumeRecording p s) ∧
     recordingTime (resumeRecording p s) = recordingTime s ∧
     recordingTime (tick (resumeRecording p s)) = recordingTime s + 1) ∧
  (* stop reads the retained value *)
  (∀ fin, recordingTime (stopRecording p fin s).1 = recordingTime s) ∧
  (* a control sets the counter to 0 only by taking Idle to Recording,
     and every start that does so resets it *)
  (∀ processing e, enabled processing s e = true →
     (Idle s ∧ Recording (step p s e).1 → recordingTime (step p s e).1 = 0) ∧
     (¬ (Idle s ∧ Recording (step p s e).1) →
        recordingTime (step p s e).1 = recordingTime s
        ∨ (e = Tick ∧ recordingTime (step p s e).1 = recordingTime s + 1))).

(** The recorder can be started: the permission is there, the component
    is Idle, and the capture backend will start - on the web the
    MediaRecorder is inactive, on a device [createAsync] resolves. *)
Definition startable (p : Platform) (created : bool) (s : State) : Prop :=
  permissionGranted s = true ∧ isRecording s = false ∧
  match p with
  | web => mediaRecorderRef s = Some inactive
  | native => created = true
  end.

(** What happens during a recording: ticker seconds, pauses, resumes. *)
Definition duringRecording (es : list Event) : bool :=
  forallb (fun e => match e with
                    | Tick | PauseRecording | ResumeRecording => true
                    | _ => false
                    end) es.

(** The seconds the design counts over the events of a recording: one
    for each ticker second while Recording, none while Paused. *)
Fixpoint elapsedOver (recording : bool) (elapsed : Z) (es : list Event) : Z :=
  match es with
  | [] => elapsed
  | Tick :: es' => elapsedOver recording (if recording then elapsed + 1 else elapsed) es'
  | PauseRecording :: es' => elapsedOver false elapsed es'
  | ResumeRecording :: es' => elapsedOver true elapsed es'
  | _ :: es' => elapsedOver recording elapsed es'
  end.

(** The component after the permission was granted on the web. *)
Definition permitted : State := (run web initial [RequestPermissions true]).1.

(** A recording of three seconds with a pause of one second. *)
Definition paused_for_a_second : list Event :=
  [Tick; PauseRecording; Tick; ResumeRecording; Tick; Tick].

(** A recording that has run for one second on the web. *)
Definition one_second_in : State :=
  (run web initial [RequestPermissions true; StartRecording true true; Tick]).1.

(** The recording cycle start, pause, stop on the web. *)
Definition paused_cycle (fin : Finalize) : list Event :=
  [RequestPermissions true; StartRecording true true; PauseRecording; StopRecording fin].

End RecorderSpec.

(** ** Exchanges *)
Module ExchangeSpec.
Import AppHandlers HistoryHandlers.

(** The request of a voice exchange. *)
Definition voiceRequest (conv : option string) (audio : AudioData) : Api.Request :=
  Api.PostVoice audio (if truthy conv then conv else None).


(** The voice reply request fails: the fetch rejects, or answers with a
    non-success status, or its body cannot be read. *)
Definition replyFails (w : World) (request : Api.Request) : Prop :=
  match answerAt w 1 (Fetch request) with
  | None => True
  | Some resp => Api.ok resp = false ∨ answerAt w 2 (JsonVoice resp) = None
  end.

(** The voice reply request succeeds with [data]. *)
Definition replySucceeds (w : World) (request : Api.Request) (data : Api.VoiceReply) : Prop :=
  ∃ resp, answerAt w 1 (Fetch request) = Some resp ∧ Api.ok resp = true ∧
          answerAt w 2 (JsonVoice resp) = Some data.

(** The in-place update of the placeholder: every message with the
    placeholder's id takes the transcript and the emotion fields. *)
Definition resolveAll (target : Z) (data : Api.VoiceReply) (l : list Message) : list Message :=
  map (fun msg => if decide (id msg = target) then resolved data msg else msg) l.

(** What the user submits. *)
Inductive Submission :=
| VoiceSubmission (audio : AudioData)
| TextSubmission (textMessage : string).

Definition handlerOf (platform : Platform) (conv : option string) (sub : Submission) : Prog :=
  match sub with
  | VoiceSubmission audio => handleVoiceMessage platform conv audio
  | TextSubmission textMessage => handleTextMessage platform conv textMessage
  end.

(** The reply request of a submission succeeds, and the reply it brings
    has the text [reply]. *)
Definition replyRead (w : World) (conv : option string) (sub : Submission)
  (reply : string) : Prop :=
  match sub with
  | VoiceSubmission audio =>
      ∃ data, replySucceeds w (voiceRequest conv audio) data ∧ Api.llm_response data = reply
  | TextSubmission textMessage =>
      ∃ resp data, answerAt w 1 (Fetch (Api.PostText textMessage conv)) = Some resp ∧
                   Api.ok resp = true ∧
                   answerAt w 2 (JsonText resp) = Some data ∧
                   Api.response data = reply
  end.

(** The promises of the history refresh never settle, all others do. *)
Definition refreshNeverSettles (q : Query) : bool :=
  match q with
  | Fetch (Api.GetConversations _) | JsonConversations _ => false
  | _ => true
  end.

(** The promise of the FileReader never settles, all others do. *)
Definition readNeverSettles (q : Query) : bool :=
  match q with
  | ReadAsDataURL _ => false
  | _ => true
  end.

(** The number of history refreshes a log starts. *)
Definition refreshes (l : list Ev) : nat :=
  length (List.filter (fun r => match r with Api.GetConversations _ => true | _ => false end)
            (requests l)).

(** The [catch] block of a message handler ran. *)
Definition caught (l : list Ev) : bool :=
  existsb (fun e => match e with
                    | Did (ConsoleError line) =>
                        String.eqb line "Error processing voice message:"
                        || String.eqb line "Error processing text message:"
                    | _ => false
                    end) l.

(** A query of the history refresh. *)
Definition refreshQuery (q : Query) : Prop :=
  match q with
  | Fetch (Api.GetConversations _) | JsonConversations _ => True
  | _ => False
  end.

(** A user message that carries an emotion annotation. *)
Definition carriesEmotion (m : Message) : bool := isUser m && truthy (emotion m).

(** The most recent message of a list in chronological order that
    satisfies [p]. *)
Definition mostRecent (p : Message → bool) (l : list Message) : option Message :=
  last (List.filter p l).

(** A stored message of the user that carries an emotion annotation. *)
Definition annotatedUserTurn (m : Api.StoredMessage) : bool :=
  String.eqb (Api.role m) "user" && truthy (Api.emotion m).

(** The most recent such message of a conversation, whose messages the
    service sends in chronological order. *)
Definition lastAnnotatedUserTurn (stored : list Api.StoredMessage)
  : option Api.StoredMessage :=
  last (List.filter annotatedUserTurn stored).

(** The store after a sequence of state updates. *)
Definition after (acts : list Action) (s : Store) : Store :=
  fold_left (fun s a => apply a s) acts s.

(** ** Sample data *)
Definition ok200 : Api.Response := Api.mkResponse true 200.
Definition error500 : Api.Response := Api.mkResponse false 500.

Definition sampleReply : Api.VoiceReply :=
  Api.mkVoiceReply "오늘 너무 힘들어요" (Some "sad") (Some (Api.num 87 (-2))) None "많이 힘드셨겠어요.".

Definition sampleAudio : AudioData := WebFile "recording.webm" "audio/webm" ["RIFF"].

Definition sampleAmbient (n : nat) : Ambient :=
  mkAmbient (1700000000000 + Z.of_nat n) "2023-11-14T22:13:20.000Z" "k3x9q2m1z"
    (fun _ => "blob:reply") true "file:///documents/" true.

(** Every request succeeds. *)
Definition allGood (n : nat) (q : Query) : Answer q :=
  match q return Answer q with
  | Fetch _ => Some ok200
  | JsonVoice _ => Some sampleReply
  | JsonText _ => Some (Api.mkTextReply "많이 힘드셨겠어요.")
  | JsonConversation _ => Some (Api.mkConversation (Some []))
  | JsonConversations _ => Some []
  | BlobOf _ => Some "RIFF"
  | TextOf _ => Some ""
  | ReadAsDataURL _ => "UklGRg=="
  | WriteAsString _ _ => Some tt
  end.

(** The world in which everything succeeds. *)
Definition goodWorld : World := mkWorld sampleAmbient allGood.

(** The world in which the reply request is rejected. *)
Definition replyRejected : World :=
  mkWorld sampleAmbient
    (fun n q => match q return Answer q with
                | Fetch r =>
                    match r with
                    | Api.PostVoice _ _ | Api.PostText _ _ => None
                    | _ => Some ok200
                    end
                | q' => allGood n q'
                end).

(** The world in which the speech request is rejected. *)
Definition speechRejected : World :=
  mkWorld sampleAmbient
    (fun n q => match q return Answer q with
                | Fetch r =>
                    match r with
                    | Api.PostTts _ => None
                    | _ => Some ok200
                    end
                | q' => allGood n q'
                end).

(** The world in which the speech request is answered with status 500. *)
Definition speechUnavailable : World :=
  mkWorld sampleAmbient
    (fun n q => match q return Answer q with
                | Fetch r =>
                    match r with
                    | Api.PostTts _ => Some error500
                    | _ => Some ok200
                    end
                | q' => allGood n q'
                end).

(** The world in which only the history refresh fails. *)
Definition refreshFailing : World :=
  mkWorld sampleAmbient
    (fun n q => match q return Answer q with
                | Fetch r =>
                    match r with
                    | Api.GetConversations _ => None
                    | _ => Some ok200
                    end
                | q' => allGood n q'
                end).

Definition firstSummary : Api.Summary :=
  Api.mkSummary "conv_1" "힘든 하루" "많이 힘드셨겠어요." 2 "2023-11-14T22:13:21".

Definition secondSummary : Api.Summary :=
  Api.mkSummary "conv_2" "새 대화" "" 0 "2023-11-13T09:00:00".

(** A session with the conversation conv_1 active and two messages
    on screen. *)
Definition activeSession : Store :=
  after [SetConversationId (Some "conv_1");
         AppendMessage (userMessage 1700000000000 "2023-11-14T22:13:20.000Z" "오늘 너무 힘들어요");
         AppendMessage (assistantMessage 1700000000001 "2023-11-14T22:13:21.000Z"
                          "많이 힘드셨겠어요." None);
         SetConversations [firstSummary; secondSummary]]
    initialStore.

(** A stored conversation: the user turn carries an emotion. *)
Definition storedMessages : list Api.StoredMessage :=
    [Api.mkStoredMessage 1 "오늘 너무 힘들어요" "user" (Some "sad") (Some (Api.num 87 (-2)))
       "2023-11-14T22:13:20";
     Api.mkStoredMessage 2 "많이 힘드셨겠어요." "assistant" None None "2023-11-14T22:13:21";
     Api.mkStoredMessage 3 "그래도 괜찮아요" "user" (Some "calm") (Some (Api.num 61 (-2)))
       "2023-11-14T22:14:02";
     Api.mkStoredMessage 4 "다행이에요." "assistant" None None "2023-11-14T22:14:03"].

Definition storedConversation : Api.Conversation := Api.mkConversation (Some storedMessages).

(** The world that serves [storedConversation]. *)
Definition historyWorld : World :=
  mkWorld sampleAmbient
    (fun n q => match q return Answer q with
                | JsonConversation _ => Some storedConversation
                | q' => allGood n q'
                end).

End ExchangeSpec.

(** ** Sample sessions of the whole client *)
Module ClientSpec.
Import Client.

(** The user opens the chat panel, types a message and sends it. *)
Definition sendText : list Event :=
  [ShowPanel chat_panel; ChangeText " 오늘 너무 힘들어요 "; PressSend].

(** The user goes back to the character panel and records a message. *)
Definition recordOnCharacter (fin : VoiceRecorder.Finalize) : list Event :=
  [ShowPanel emotion_panel;
   Recorder emotion_panel (VoiceRecorder.RequestPermissions true);
   Recorder emotion_panel (VoiceRecorder.StartRecording true true);
   Recorder emotion_panel (VoiceRecorder.StopRecording fin)].

(** The user records a message with the recorder of the chat panel. *)
Definition recordOnChat (fin : VoiceRecorder.Finalize) : list Event :=
  [ShowPanel chat_panel;
   Recorder chat_panel (VoiceRecorder.RequestPermissions true);
   Recorder chat_panel (VoiceRecorder.StartRecording true true);
   Recorder chat_panel (VoiceRecorder.StopRecording fin)].

(** The user starts a recording on the chat panel, sends a text while it
    runs, and then sends the recording. *)
Definition sendTextWhileRecording (fin : VoiceRecorder.Finalize) : list Event :=
  [ShowPanel chat_panel;
   Recorder chat_panel (VoiceRecorder.RequestPermissions true);
   Recorder chat_panel (VoiceRecorder.StartRecording true true);
   ChangeText "잠깐만요";
   PressSend;
   Recorder chat_panel (VoiceRecorder.StopRecording fin)].

(** On a wide window the user types a message without sending it, lets
    both recorders have the microphone, and records and sends a voice
    message on the chat panel. *)
Definition recordWithTextTyped (fin : VoiceRecorder.Finalize) : list Event :=
  [ShowPanel chat_panel;
   ChangeText "잠깐만요";
   Recorder emotion_panel (VoiceRecorder.RequestPermissions true);
   Recorder chat_panel (VoiceRecorder.RequestPermissions true);
   Recorder chat_panel (VoiceRecorder.StartRecording true true);
   Recorder chat_panel (VoiceRecorder.StopRecording fin)].

Definition sampleFinalize : VoiceRecorder.Finalize :=
  VoiceRecorder.mkFinalize true (Some "file:///cache/recording.m4a") (Some (Some 20480)) "RIFF".

(** The session state of a client. *)
Definition session (c : State) : App.State := app (current (loop c)).

End ClientSpec.

(** * More of VoiceRecorder.js: cleanup on unmount and the time display *)
Module RecorderCleanup.
Import VoiceRecorder.

(** The cleanup function the mount effect returns. It reads the three
    refs as they are when the component goes away: the timer is cleared,
    an expo recording is stopped and unloaded (not awaited, its file is
    not read), and a MediaRecorder whose state is [recording] is
    stopped, which fires its last [dataavailable] and its [onstop]. *)
Definition unmount (fin : Finalize) (s : State) : State * list AudioData :=
  let live := clearTimer s in
  match mediaRecorderRef s with
  | Some recording =>
      ({| isRecording := isRecording s; recordingTime := recordingTime s;
          isPaused := isPaused s; permissionGranted := permissionGranted s;
          recordingRef := recordingRef s; timerRef := timerRef s;
          mediaRecorderRef := Some inactive; audioChunksRef := [];
          intervals := live; nextInterval := nextInterval s |},
       [WebFile "recording.webm" "audio/webm" (audioChunksRef s ++ [lastChunk fin])])
  | _ =>
      ({| isRecording := isRecording s; recordingTime := recordingTime s;
          isPaused := isPaused s; permissionGranted := permissionGranted s;
          recordingRef := recordingRef s; timerRef := timerRef s;
          mediaRecorderRef := mediaRecorderRef s; audioChunksRef := audioChunksRef s;
          intervals := live; nextInterval := nextInterval s |}, [])
  end.

(** Whether the cleanup calls [stopAndUnloadAsync] on an expo recording. *)
Definition unloadsRecording (s : State) : bool := recordingRef s.

(** [String.prototype.padStart(2, '0')] *)
Definition padStart2 (s : string) : string :=
  match String.length s with
  | O => "00"
  | 1%nat => "0" +:+ s
  | _ => s
  end.

(** [formatTime]: the elapsed seconds as minutes and seconds. *)
Definition formatTime (seconds : Z) : string :=
  let mins := seconds `div` 60 in
  let secs := seconds `mod` 60 in
  padStart2 (pretty mins) +:+ ":" +:+ padStart2 (pretty secs).

(** The platform invariants of the refs in the states the controls reach. *)
Definition refs_inv (p : Platform) (s : State) : Prop :=
  audioChunksRef s = [] ∧
  match p with
  | web =>
      recordingRef s = false ∧
      (isRecording s = true →
         mediaRecorderRef s = Some (if isPaused s then paused else recording)) ∧
      (isRecording s = false → mediaRecorderRef s ≠ Some recording)
  | native =>
      mediaRecorderRef s = None ∧
      (isRecording s = true → recordingRef s = true)
  end.

(** A web recorder whose recording was sent while paused. *)
Definition stuck (s : State) : Prop :=
  permissionGranted s = true ∧ isRecording s = false ∧
  mediaRecorderRef s = Some paused.

(** What a finalized expo recording hands over, if anything. *)
Definition nativeAsset (fin : Finalize) : list AudioData :=
  if unloaded fin then
    match finalUri fin, fileInfo fin with
    | Some uri, Some size =>
        if decide (uri = "") then [] else [NativeFile uri "audio/m4a" "recording.m4a" size]
    | _, _ => []
    end
  else [].

(** Reading a displayed time back: the value of the two digits before
    the colon and of the two digits after it. *)
Definition digitValue (a : Ascii.ascii) : Z := Z.of_nat (Ascii.nat_of_ascii a) - 48.

Fixpoint readDigits (acc : Z) (s : string) : Z :=
  match s with
  | EmptyString => acc
  | String a rest => readDigits (10 * acc + digitValue a) rest
  end.

Definition readTime (s : string) : Z :=
  60 * readDigits 0 (String.substring 0 2 s) + readDigits 0 (String.substring 3 2 s).

(** The display of [k] seconds is five characters with a colon in the
    middle and reads back as [k]. *)
Definition displaysExactly (k : nat) : bool :=
  let shown := formatTime (Z.of_nat k) in
  Nat.eqb (String.length shown) 5
  && match String.get 2 shown with Some c => Ascii.eqb c ":" | None => false end
  && Z.eqb (readTime shown) (Z.of_nat k).

(** A paused recording on a device. *)
Definition paused_on_device : State :=
  (run native initial
     [RequestPermissions true; StartRecording true true; Tick; PauseRecording]).1.

End RecorderCleanup.

(** * More notions for exchanges *)
Module ExchangeMore.
Import AppHandlers HistoryHandlers ExchangeSpec.

(** The request of a text exchange. *)
Definition textRequest (conv : option string) (textMessage : string) : Api.Request :=
  Api.PostText textMessage conv.

(** The speech request of a reply. *)
Definition speechRequest (reply : string) : Api.Request := Api.PostTts reply.


(** The transient fields of the session state. *)
Definition transientOf (a : App.State) : string * string * option string :=
  (App.userTranscript a, App.llmResponse a, App.ttsAudioUrl a).

(** The awaits of a log, in order. *)
Definition awaited (l : list Ev) : list Query :=
  omap (fun e => match e with Requested q => Some q | _ => None end) l.

(** The alerts of a log, in order. *)
Definition alerts (l : list Ev) : list string :=
  omap (fun e => match e with Did (Alert line) => Some line | _ => None end) l.

(** The requests an exchange may issue, in the order it may issue them:
    the reply request, then the speech request for the reply, then the
    history refresh. *)
Definition orderly (first : Api.Request) (rs : list Api.Request) : Prop :=
  rs = [first]
  ∨ ∃ reply, rs = [first; Api.PostTts reply]
             ∨ rs = [first; Api.PostTts reply; Api.GetConversations 50].

(** The first request of a submission. *)
Definition requestOf (conv : option string) (sub : Submission) : Api.Request :=
  match sub with
  | VoiceSubmission audio => voiceRequest conv audio
  | TextSubmission textMessage => textRequest conv textMessage
  end.

End ExchangeMore.

(** * What the list components display *)

(** ChatMessage.js: which parts of a message the transcript shows. *)
Module ChatMessage.

(** [!isUser && message.emotion] *)
Definition showsEmotionBadge (m : Message) : bool := negb (isUser m) && truthy (emotion m).

(** [!isUser && message.audioUrl] *)
Definition showsAudioButton (m : Message) : bool := negb (isUser m) && truthy (audioUrl m).

(** [!isUser && message.emotionTop3 && message.emotionTop3.length > 0] *)
Definition showsEmotionDetails (m : Message) : bool :=
  negb (isUser m)
  && match emotionTop3 m with
     | Some (_ :: _) => true
     | _ => false
     end.

(** No emotion of the message is on display. *)
Definition hidesEmotion (m : Message) : bool :=
  negb (showsEmotionBadge m) && negb (showsEmotionDetails m).

(** Playback of the audio of one message: the [isPlayingAudio] cell,
    whether [Audio.Sound.createAsync] is being awaited, and the sounds
    that are loaded and not yet unloaded. *)
Record Playback := mkPlayback {
  isPlayingAudio : bool;
  creating : bool;
  loaded : nat
}.

Definition silent : Playback := mkPlayback false false 0.

Inductive PlayEvent :=
| Press                      (* the audio button: playAudio *)
| Created (sound : bool)     (* createAsync resolves, or rejects *)
| Finished.                  (* a status update with didJustFinish *)

(** [playAudio], up to its await. *)
Definition playAudio (m : Message) (p : Playback) : Playback :=
  if truthy (audioUrl m) && negb (isPlayingAudio p)
  then mkPlayback true true (loaded p)
  else p.

Definition playStep (m : Message) (p : Playback) (e : PlayEvent) : Playback :=
  match e with
  | Press => playAudio m p
  | Created true => mkPlayback (isPlayingAudio p) false (S (loaded p))
  | Created false => mkPlayback false false (loaded p)   (* the catch block *)
  | Finished => mkPlayback false (creating p) (pred (loaded p))
  end.

(** What can happen: the button can always be pressed, a creation
    settles only while it is awaited, and only a loaded sound finishes;
    it is unloaded then and does not finish a second time. Every event
    is one step: the component has rendered before the next one. *)
Definition possible (p : Playback) (e : PlayEvent) : bool :=
  match e with
  | Press => true
  | Created _ => creating p
  | Finished => negb (Nat.eqb (loaded p) 0)
  end.

Fixpoint playAll (m : Message) (p : Playback) (es : list PlayEvent) : Playback :=
  match es with
  | [] => p
  | e :: es' => playAll m (playStep m p e) es'
  end.

Fixpoint allPossible (m : Message) (p : Playback) (es : list PlayEvent) : bool :=
  match es with
  | [] => true
  | e :: es' => possible p e && allPossible m (playStep m p e) es'
  end.

(** One sound at most, and only while the message counts as playing. *)
Definition exclusive (p : Playback) : Prop :=
  match isPlayingAudio p with
  | true => (creating p = true ∧ loaded p = 0%nat) ∨ (creating p = false ∧ loaded p = 1%nat)
  | false => creating p = false ∧ loaded p = 0%nat
  end.

End ChatMessage.

(** ConversationHistory.js: [formatDate]. *)
Module RelativeDate.

(** What [formatDate] returns: one of the four relative texts, or the
    locale's rendering of the date. *)
Inductive Shown :=
| JustNow                 (* '방금 전' *)
| MinutesAgo (n : Z)      (* `${diffMins}분 전` *)
| HoursAgo (n : Z)        (* `${diffHours}시간 전` *)
| DaysAgo (n : Z)         (* `${diffDays}일 전` *)
| LocaleDate.             (* date.toLocaleDateString('ko-KR', ...) *)

(** [now] is the current time and [date] the parsed [dateString], both
    in milliseconds; [None] is an invalid date (NaN), for which every
    comparison is false. *)
Definition formatDate (now : Z) (date : option Z) : Shown :=
  match date with
  | None => LocaleDate
  | Some d =>
      let diffMs := now - d in
      let diffMins := diffMs `div` 60000 in
      let diffHours := diffMs `div` 3600000 in
      let diffDays := diffMs `div` 86400000 in
      if (diffMins <? 1)%Z then JustNow
      else if (diffMins <? 60)%Z then MinutesAgo diffMins
      else if (diffHours <? 24)%Z then HoursAgo diffHours
      else if (diffDays <? 7)%Z then DaysAgo diffDays
      else LocaleDate
  end.

Definition text (s : Shown) : option string :=
  match s with
  | JustNow => Some "방금 전"
  | MinutesAgo n => Some (pretty n +:+ "분 전")
  | HoursAgo n => Some (pretty n +:+ "시간 전")
  | DaysAgo n => Some (pretty n +:+ "일 전")
  | LocaleDate => None
  end.

End RelativeDate.

(** ** Failing loads and deletes *)
Module HistorySpec.
Import AppHandlers HistoryHandlers ExchangeSpec.

(** How the request for a stored conversation fails: the fetch rejects,
    the status is not a success, the body cannot be read, or the body
    is read but has no array of messages. *)
Inductive LoadFailure := LoadRejected | LoadRefused | LoadUnreadable | LoadMalformed.

Definition loadFailure (w : World) (convId : string) : option LoadFailure :=
  match answerAt w 1 (Fetch (Api.GetConversation convId)) with
  | None => Some LoadRejected
  | Some resp =>
      if Api.ok resp then
        match answerAt w 2 (JsonConversation resp) with
        | None => Some LoadUnreadable
        | Some data =>
            match Api.messages data with
            | None => Some LoadMalformed
            | Some _ => None
            end
        end
      else Some LoadRefused
  end.

(** The world that answers a load with a body without messages. *)
Definition malformed : World :=
  mkWorld ExchangeSpec.sampleAmbient
    (fun n q => match q return Answer q with
                | JsonConversation _ => Some (Api.mkConversation None)
                | q' => ExchangeSpec.allGood n q'
                end).

(** The summaries the history list holds after a refresh in world [w]
    that started with [old]. *)
Definition refreshed (w : World) (old : list Api.Summary) : list Api.Summary :=
  match answerAt w 1 (Fetch (Api.GetConversations 50)) with
  | Some resp =>
      if Api.ok resp then
        match answerAt w 2 (JsonConversations resp) with
        | Some data => data
        | None => old
        end
      else old
  | None => old
  end.

(** The delete request is not confirmed to have succeeded. *)
Definition deleteFails (w : World) (target : string) : Prop :=
  match answerAt w 1 (Fetch (Api.DeleteConversation target)) with
  | None => True
  | Some resp => Api.ok resp = false
  end.

(** The world in which the user declines every confirmation. *)
Definition declining : World :=
  mkWorld (fun n => mkAmbient (1700000000000 + Z.of_nat n) "2023-11-14T22:13:20.000Z"
                      "k3x9q2m1z" (fun _ => "blob:reply") false "file:///documents/" true)
    allGood.

(** The world in which every request is answered with status 500. *)
Definition failing : World :=
  mkWorld sampleAmbient
    (fun n q => match q return Answer q with
                | Fetch _ => Some error500
                | q' => allGood n q'
                end).

End HistorySpec.

(** ** The text input *)
Module TextInputSpec.

(** Every character of the string is white space. *)
Fixpoint blank (s : string) : bool :=
  match s with
  | EmptyString => true
  | String a rest => isSpace a && blank rest
  end.



(** A client that has typed a message and not sent it. *)
Definition typed : Client.State :=
  Client.run web ExchangeSpec.sampleAmbient 0 Client.initial
    [Client.ShowPanel chat_panel; Client.ChangeText "  I had a really hard day  "].

(** A client whose text input holds only white space. *)
Definition typedBlank : Client.State :=
  Client.run web ExchangeSpec.sampleAmbient 0 Client.initial
    [Client.ShowPanel chat_panel; Client.ChangeText "   "].

End TextInputSpec.

(** ** Facts about the store and the event loop *)
Module StoreFacts.

#[local] Arguments apply : simpl never.
#[local] Arguments drive : simpl never.
#[local] Arguments driveWith : simpl never.
#[local] Arguments transcript : simpl never.
#[local] Arguments allocArray : simpl never.
#[local] Arguments writeArray : simpl never.
#[local] Arguments arrayAt : simpl never.

Lemma drive_S fuel w n l :
  drive (S fuel) w n l =
  match pending l with
  | [] => l
  | _ :: _ => drive fuel w (S n) (settle (ambientAt w n) 0 (answerAt w n) l)
  end.
Proof. reflexivity. Qed.

Lemma arrayAt_alloc l s : arrayAt (allocArray l s).1 (allocArray l s).2 = l.
Proof.
  unfold arrayAt, allocArray; cbn. rewrite lookup_insert_eq. reflexivity.
Qed.

(** How each state update changes the transcript. *)
Lemma transcript_apply a s :
  transcript (apply a s) =
  match a with
  | AppendMessage m => transcript s ++ [m]
  | ResolveMessage target r =>
      map (fun msg => if decide (id msg = target) then resolved r msg else msg)
        (transcript s)
  | SetMessages r => arrayAt s r
  | _ => transcript s
  end.
Proof.
  destruct a; try reflexivity.
  - unfold apply, updateMessages, transcript at 1.
    exact (arrayAt_alloc _ s).
  - unfold apply, updateMessages, transcript at 1.
    exact (arrayAt_alloc _ s).
Qed.

Lemma isProcessing_apply a s :
  App.isProcessing (app (apply a s)) =
  match a with
  | SetIsProcessing b => b
  | _ => App.isProcessing (app s)
  end.
Proof. destruct a; reflexivity. Qed.

Lemma lastUsedPanel_apply a s :
  App.lastUsedPanel (app (apply a s)) =
  match a with
  | SetLastUsedPanel p => p
  | _ => App.lastUsedPanel (app s)
  end.
Proof. destruct a; reflexivity. Qed.

Lemma arrayAt_writeArray r l s : arrayAt (writeArray r l s) r = l.
Proof.
  unfold arrayAt, writeArray; cbn. rewrite lookup_insert_eq. reflexivity.
Qed.

Lemma app_allocArray l s : app (allocArray l s).1 = app s.
Proof. reflexivity. Qed.

Lemma history_allocArray l s : history (allocArray l s).1 = history s.
Proof. reflexivity. Qed.

Lemma app_writeArray r l s : app (writeArray r l s) = app s.
Proof. reflexivity. Qed.

Lemma history_writeArray r l s : history (writeArray r l s) = history s.
Proof. reflexivity. Qed.

Lemma currentEmotion_apply a s :
  App.currentEmotion (app (apply a s)) =
  match a with
  | SetCurrentEmotion e => e
  | _ => App.currentEmotion (app s)
  end.
Proof. destruct a; reflexivity. Qed.

Lemma conversationId_apply a s :
  App.conversationId (app (apply a s)) =
  match a with
  | SetConversationId c => c
  | _ => App.conversationId (app s)
  end.
Proof. destruct a; reflexivity. Qed.

Lemma conversations_apply a s :
  ConversationHistory.conversations (history (apply a s)) =
  match a with
  | SetConversations cs => cs
  | _ => ConversationHistory.conversations (history s)
  end.
Proof. destruct a; reflexivity. Qed.

(** Updates of the history component and output leave the session alone. *)
Lemma app_SetConversations cs s : app (apply (SetConversations cs) s) = app s.
Proof. reflexivity. Qed.

Lemma app_SetIsLoading b s : app (apply (SetIsLoading b) s) = app s.
Proof. reflexivity. Qed.

Lemma app_ConsoleError line s : app (apply (ConsoleError line) s) = app s.
Proof. reflexivity. Qed.

Lemma app_ConsoleLog line s : app (apply (ConsoleLog line) s) = app s.
Proof. reflexivity. Qed.

Lemma app_Alert line s : app (apply (Alert line) s) = app s.
Proof. reflexivity. Qed.

Ltac store_simpl :=
  repeat (rewrite ?transcript_apply, ?isProcessing_apply, ?lastUsedPanel_apply,
            ?currentEmotion_apply, ?conversationId_apply, ?conversations_apply,
            ?app_allocArray, ?history_allocArray, ?app_writeArray,
            ?history_writeArray; cbn).

Ltac app_simpl :=
  rewrite ?app_SetConversations, ?app_SetIsLoading, ?app_ConsoleError,
    ?app_ConsoleLog, ?app_Alert.

(** Case analysis on whatever the world answers next. *)
Ltac split_answers :=
  repeat
    (match goal with
     | |- context [match answerAt ?w ?n ?q with _ => _ end] =>
         let E := fresh "Hanswer" in destruct (answerAt w n q) eqn:E
     | |- context [match ?a ?n ?q with _ => _ end] =>
         is_var a; let E := fresh "Hanswer" in destruct (a n q) eqn:E
     | |- context [Api.ok ?r] =>
         let E := fresh "Hok" in destruct (Api.ok r) eqn:E
     | |- context [match ?p with web => _ | native => _ end] =>
         is_var p; destruct p
     | |- context [historyMounted (ambientAt ?w ?n)] =>
         let E := fresh "Href" in destruct (historyMounted (ambientAt w n)) eqn:E
     end; cbn).

Lemma drive_O w n l : drive 0 w n l = l.
Proof. reflexivity. Qed.

(** One turn of the event loop, then simplification. *)
Ltac turn := rewrite drive_S; cbn; rewrite ?drive_O.

(** The turns that remain, through every way they can go. *)
Ltac finish_turns := repeat (turn; split_answers).

Lemma driveWith_S settles fuel w n l :
  driveWith settles (S fuel) w n l =
  match oldestSettling settles (pending l) with
  | None => l
  | Some i => driveWith settles fuel w (S n) (settle (ambientAt w n) i (answerAt w n) l)
  end.
Proof. reflexivity. Qed.

Lemma driveWith_O settles w n l : driveWith settles 0 w n l = l.
Proof. reflexivity. Qed.

(** Nothing happens any more once no awaited promise settles. *)
Lemma driveWith_stalled settles fuel w n l :
  oldestSettling settles (pending l) = None → driveWith settles fuel w n l = l.
Proof. intros H. destruct fuel; [reflexivity|]. rewrite driveWith_S, H. reflexivity. Qed.

(** When every promise settles, [driveWith] is [drive]. *)
Lemma driveWith_all settles fuel w :
  (∀ q, settles q = true) → ∀ n l, driveWith settles fuel w n l = drive fuel w n l.
Proof.
  intros Hall. induction fuel as [|fuel IH]; intros n l; [reflexivity|].
  rewrite driveWith_S, drive_S.
  destruct (pending l) as [|t ts]; [reflexivity|].
  cbn [oldestSettling]. rewrite Hall. apply IH.
Qed.

(** Whether the promise awaited next settles: it does when a hypothesis
    says so, and otherwise both cases are followed. *)
Ltac split_settles :=
  repeat
    (match goal with
     | H : ∀ q, _ → ?f q = true |- context [?f ?q] => rewrite (H q) by (cbn; tauto)
     | |- context [if ?f ?q then _ else _] =>
         is_var f; let E := fresh "Hsettles" in destruct (f q) eqn:E
     end; cbn).

Ltac turnWith := rewrite driveWith_S; cbn; split_settles; rewrite ?driveWith_O.

Ltac finish_turnsWith := repeat (turnWith; split_answers).


End StoreFacts.
(** ** Properties of the recording state machine *)
Module VoiceRecorderProps.
Import VoiceRecorder RecorderSpec.

Lemma filter_other_single (t : nat) : filter (fun i => i ≠ t) [t] = [].
Proof.
  rewrite filter_cons, filter_nil. destruct (decide (t ≠ t)); congruence.
Qed.

Lemma clearTimer_inv s : timer_inv s → clearTimer s = [].
Proof.
  intros (_ & _ & H). unfold clearTimer.
  destruct (isRecording s && negb (isPaused s)), (timerRef s) as [t|];
    try contradiction; rewrite H; auto using filter_other_single.
Qed.

Ltac split_inv := split; [|split]; cbn; auto; try congruence.

Lemma timer_inv_step p s e processing :
  timer_inv s → enabled processing s e = true → timer_inv (step p s e).1.
Proof.
  intros Hinv Hen. pose proof (clearTimer_inv s Hinv) as Hclr.
  destruct Hinv as (Hidle & Hperm & Hlive).
  destruct e as [g|g c| | |fin|]; cbn in Hen |- *.
  - apply negb_true_iff in Hen.
    assert (Hr : isRecording s = false).
    { destruct (isRecording s); [rewrite Hperm in Hen|]; congruence. }
    unfold requestPermissions. destruct p, g; split_inv.
  - apply andb_prop in Hen as [Hen _]. apply andb_prop in Hen as [Hg Hr].
    apply negb_true_iff in Hr. specialize (Hidle Hr).
    unfold startRecording. rewrite Hg; cbn.
    rewrite Hr, Hidle in Hlive; cbn in Hlive.
    destruct p.
    + destruct (mediaRecorderRef s) as [[| |]|]; split_inv;
        rewrite ?Hr, ?Hidle, ?Hlive; cbn; auto.
    + destruct c; split_inv; rewrite ?Hr, ?Hidle, ?Hlive; cbn; auto.
  - apply andb_prop in Hen as [Hen _]. apply andb_prop in Hen as [_ Hr].
    split_inv. rewrite Hr; cbn. exact Hclr.
  - apply andb_prop in Hen as [Hen Hp]. apply andb_prop in Hen as [_ Hr].
    rewrite Hr, Hp in Hlive; cbn in Hlive.
    split_inv. rewrite Hr, Hlive; cbn. reflexivity.
  - unfold stopRecording. rewrite Hclr.
    destruct p.
    + destruct (mediaRecorderRef s) as [[| |]|]; split_inv.
    + destruct (recordingRef s), (unloaded fin), (finalUri fin) as [u|]; cbn;
        try (split_inv; fail);
        destruct (decide (u = "")), (fileInfo fin); split_inv.
  - split_inv.
Qed.

Lemma reachable_timer_inv p s : reachable p s → timer_inv s.
Proof.
  induction 1 as [|s e processing _ IH Hen].
  - split_inv.
  - eapply timer_inv_step; eauto.
Qed.

Lemma tick_recording s :
  timer_inv s → Recording s → recordingTime (tick s) = recordingTime s + 1.
Proof.
  intros (_ & _ & H) [Hr Hp]. rewrite Hr, Hp in H; cbn in H.
  destruct (timerRef s); [|contradiction]. cbn. rewrite H. reflexivity.
Qed.

Lemma tick_not_recording s :
  timer_inv s → ¬ Recording s → recordingTime (tick s) = recordingTime s.
Proof.
  intros (_ & _ & H) Hn. unfold Recording in Hn.
  destruct (isRecording s), (isPaused s); cbn in H;
    try (cbn; rewrite H; reflexivity).
  tauto.
Qed.

Lemma pause_enabled s : timer_inv s → Recording s → enabled false s PauseRecording = true.
Proof. intros (_ & Hperm & _) [Hr Hp]. cbn. rewrite (Hperm Hr), Hr, Hp. reflexivity. Qed.

Lemma resume_enabled s : timer_inv s → Paused s → enabled false s ResumeRecording = true.
Proof. intros (_ & Hperm & _) [Hr Hp]. cbn. rewrite (Hperm Hr), Hr, Hp. reflexivity. Qed.

Lemma step_time_cases p s e processing :
  timer_inv s → enabled processing s e = true →
  recordingTime (step p s e).1 = recordingTime s
  ∨ (e = Tick ∧ Recording s ∧ recordingTime (step p s e).1 = recordingTime s + 1)
  ∨ (Idle s ∧ Recording (step p s e).1 ∧ recordingTime (step p s e).1 = 0).
Proof.
  intros Hinv Hen.
  destruct e as [g|g c| | |fin|]; cbn in Hen |- *.
  - left. unfold requestPermissions. destruct p, g; reflexivity.
  - apply andb_prop in Hen as [Hen _]. apply andb_prop in Hen as [Hg Hr].
    apply negb_true_iff in Hr. pose proof (proj1 Hinv Hr) as Hp.
    unfold startRecording. rewrite Hg; cbn.
    destruct p.
    + destruct (mediaRecorderRef s) as [[| |]|]; cbn; auto.
      right; right. unfold Idle, Recording; cbn. auto.
    + destruct c; cbn; auto.
      right; right. unfold Idle, Recording; cbn. auto.
  - auto.
  - auto.
  - left. unfold stopRecording. destruct p.
    + destruct (mediaRecorderRef s) as [[| |]|]; reflexivity.
    + destruct (recordingRef s), (unloaded fin), (finalUri fin) as [u|]; cbn; auto;
        destruct (decide (u = "")), (fileInfo fin); reflexivity.
  - destruct (isRecording s) eqn:Hr, (isPaused s) eqn:Hp.
    + left. apply tick_not_recording; auto. unfold Recording. intros [_ ?]; congruence.
    + right; left. split; [reflexivity|]. split; [split; assumption|].
      apply tick_recording; auto. split; assumption.
    + left. apply tick_not_recording; auto. unfold Recording. intros [? _]; congruence.
    + left. apply tick_not_recording; auto. unfold Recording. intros [? _]; congruence.
Qed.

Lemma stop_keeps_time p fin s : recordingTime (stopRecording p fin s).1 = recordingTime s.
Proof.
  unfold stopRecording. destruct p.
  - destruct (mediaRecorderRef s) as [[| |]|]; reflexivity.
  - destruct (recordingRef s), (unloaded fin), (finalUri fin) as [u|]; cbn; auto;
      destruct (decide (u = "")), (fileInfo fin); reflexivity.
Qed.

Lemma tick_keeps_flags s :
  isRecording (tick s) = isRecording s ∧ isPaused (tick s) = isPaused s.
Proof. split; reflexivity. Qed.

Lemma tick_timer_inv s : timer_inv s → timer_inv (tick s).
Proof. intros H. exact (timer_inv_step web s Tick false H eq_refl). Qed.

Lemma run_cons p s e es :
  run p s (e :: es) = ((run p (step p s e).1 es).1, (step p s e).2 ++ (run p (step p s e).1 es).2).
Proof.
  cbn [run]. destruct (step p s e) as [s1 o1]. cbn.
  destruct (run p s1 es). reflexivity.
Qed.

Lemma start_enters_zero p g c s processing :
  enabled processing s (StartRecording g c) = true →
  Recording (startRecording p g c s) →
  recordingTime (startRecording p g c s) = 0.
Proof.
  cbn. intros Hen. apply andb_prop in Hen as [Hen _]. apply andb_prop in Hen as [Hg Hr].
  apply negb_true_iff in Hr. unfold startRecording. rewrite Hg; cbn.
  destruct p.
  - destruct (mediaRecorderRef s) as [[| |]|]; cbn; auto;
      intros [H _]; cbn in H; congruence.
  - destruct c; cbn; auto. intros [H _]; congruence.
Qed.

Lemma tick_while_recording s :
  timer_inv s → Recording s →
  timer_inv (tick s) ∧ Recording (tick s) ∧ recordingTime (tick s) = recordingTime s + 1.
Proof.
  intros Hi Hr. split; [now apply tick_timer_inv|].
  split; [exact Hr|]. now apply tick_recording.
Qed.

Lemma elapsed_spec_of_inv (p : Platform) (s : State) : timer_inv s → elapsed_spec p s.
Proof.
  intros Hinv.
  unfold elapsed_spec. split_and!.
  - now apply tick_recording.
  - now apply tick_not_recording.
  - intros Hrec.
    pose proof (timer_inv_step p s PauseRecording false Hinv (pause_enabled s Hinv Hrec)) as Hi.
    cbn [step fst] in Hi. destruct Hrec as [Hr Hp].
    assert (HP : Paused (pauseRecording p s)) by (split; cbn; auto).
    split; [exact HP|]. split; [reflexivity|].
    rewrite tick_not_recording; auto.
    destruct HP as [_ HP]. intros [_ ?]. congruence.
  - intros Hpau.
    pose proof (timer_inv_step p s ResumeRecording false Hinv (resume_enabled s Hinv Hpau)) as Hi.
    cbn [step fst] in Hi. destruct Hpau as [Hr Hp].
    assert (HR : Recording (resumeRecording p s)) by (split; cbn; auto).
    split; [exact HR|]. split; [reflexivity|].
    rewrite tick_recording; auto.
  - intros fin. apply stop_keeps_time.
  - intros processing e Hen.
    destruct (step_time_cases p s e processing Hinv Hen) as [H|[(He & Hrs & H)|(Hi & Hr & H)]].
    + split; [|auto]. intros [Hi Hr].
      destruct e as [g|g c| | |fin|]; cbn [step fst] in *.
      * destruct Hr as [Hr _]. unfold requestPermissions in Hr.
        unfold Idle in Hi. destruct p, g; cbn in Hr; congruence.
      * eapply start_enters_zero; eauto.
      * destruct Hr as [_ Hr]. cbn in Hr. congruence.
      * destruct Hr as [Hr _]. cbn in Hr. unfold Idle in Hi. congruence.
      * cbn in Hen. apply andb_prop in Hen as [_ Hen]. unfold Idle in Hi. congruence.
      * destruct Hr as [Hr _]. cbn in Hr. unfold Idle in Hi. congruence.
    + split; [|auto]. intros [Hi _]. destruct Hrs as [Hr' _].
      unfold Idle in Hi. congruence.
    + split; [auto|]. intros Hn. destruct Hn. auto.
Qed.

(** A start from a startable state reaches Recording with the counter
    at 0. *)
Lemma start_succeeds p g c s :
  timer_inv s → startable p c s →
  Recording (startRecording p g c s) ∧
  recordingTime (startRecording p g c s) = 0 ∧
  timer_inv (startRecording p g c s).
Proof.
  intros Hinv (Hg & Hr & Hback).
  assert (Hen : enabled false s (StartRecording g c) = true)
    by (cbn; rewrite Hg, Hr; reflexivity).
  pose proof (timer_inv_step p s (StartRecording g c) false Hinv Hen) as Hi.
  cbn [step fst] in Hi. split; [|split; [|exact Hi]].
  - pose proof (proj1 Hinv Hr) as Hp.
    unfold startRecording, Recording. rewrite Hg. cbn.
    destruct p; [rewrite Hback|subst c]; cbn; auto.
  - unfold startRecording. rewrite Hg. cbn.
    destruct p; [rewrite Hback|subst c]; reflexivity.
Qed.

(** Over the ticker seconds, pauses and resumes of a running recording
    the counter is what the design counts. *)
Lemma elapsed_over_run p processing es :
  ∀ s, timer_inv s → isRecording s = true →
       duringRecording es = true → legal processing p s es = true →
       recordingTime (run p s es).1
       = elapsedOver (negb (isPaused s)) (recordingTime s) es ∧
       timer_inv (run p s es).1 ∧ isRecording (run p s es).1 = true.
Proof.
  induction es as [|e es IH]; intros s Hinv Hr Hd Hl; [cbn; auto|].
  cbn [duringRecording forallb] in Hd. apply andb_prop in Hd as [He Hd].
  cbn [legal] in Hl. apply andb_prop in Hl as [Hen Hl].
  pose proof (timer_inv_step p s e processing Hinv Hen) as Hi.
  rewrite run_cons. cbn [fst].
  destruct e as [g|g c| | |fin|]; try discriminate; cbn [step fst] in *.
  - cbn in Hen. apply andb_prop in Hen as [_ Hp]. apply negb_true_iff in Hp.
    destruct (IH (pauseRecording p s) Hi Hr Hd Hl) as (Ht & Hi' & Hr').
    rewrite Ht. cbn. auto.
  - cbn in Hen. apply andb_prop in Hen as [_ Hp].
    destruct (IH (resumeRecording p s) Hi Hr Hd Hl) as (Ht & Hi' & Hr').
    rewrite Ht. cbn. auto.
  - destruct (IH (tick s) Hi Hr Hd Hl) as (Ht & Hi' & Hr').
    rewrite Ht. split; [|auto]. cbn [elapsedOver].
    change (isPaused (tick s)) with (isPaused s).
    destruct (isPaused s) eqn:Hp; cbn [negb].
    + rewrite (tick_not_recording s Hinv); [reflexivity|].
      intros [_ ?]; congruence.
    + rewrite (tick_recording s Hinv); [reflexivity|]. split; assumption.
Qed.

(** C8. From every state the controls can reach in which the recorder
    can be started, a start enters Recording with the elapsed-seconds
    counter at 0. Over the ticker seconds, pauses and resumes that
    follow, the counter is the number of ticker seconds that passed
    while Recording: it goes up by one per second while Recording, is
    kept across a pause and continues from the kept value after the
    resume. Stop reads that value; start, three ticks and stop read 3.
    In the state reached, a control sets the counter to 0 only by
    taking Idle to Recording. *)
Theorem elapsed_counter_retained
  (p : Platform) (s : State) (processing g c : bool) (es : list Event) (fin : Finalize) :
  reachable p s → startable p c s →
  duringRecording es = true →
  legal processing p (startRecording p g c s) es = true →
  let started := startRecording p g c s in
  let final := (run p started es).1 in
  Recording started ∧ recordingTime started = 0 ∧
  recordingTime final = elapsedOver true 0 es ∧
  recordingTime (stopRecording p fin final).1 = elapsedOver true 0 es ∧
  recordingTime (run p s [StartRecording g c; Tick; Tick; Tick; StopRecording fin]).1 = 3 ∧
  elapsed_spec p final.
Proof.
  intros Hreach Hstart Hd Hl started final. subst started final.
  pose proof (reachable_timer_inv p s Hreach) as Hinv.
  destruct (start_succeeds p g c s Hinv Hstart) as (Hrec & Hzero & Hi).
  destruct (elapsed_over_run p processing es _ Hi (proj1 Hrec) Hd Hl)
    as (Ht & Hif & Hrf).
  rewrite (proj2 Hrec), Hzero in Ht. cbn [negb] in Ht.
  split_and!; auto.
  - rewrite stop_keeps_time. exact Ht.
  - rewrite !run_cons. cbn [step fst run].
    rewrite stop_keeps_time.
    destruct (tick_while_recording _ Hi Hrec) as (Hi1 & Hr1 & Ht1).
    destruct (tick_while_recording _ Hi1 Hr1) as (Hi2 & Hr2 & Ht2).
    destruct (tick_while_recording _ Hi2 Hr2) as (Hi3 & Hr3 & Ht3).
    lia.
  - now apply elapsed_spec_of_inv.
Qed.

Lemma elapsed_counter_retained_witness :
  let fin := mkFinalize true None None "RIFF" in
  let started := startRecording web true true permitted in
  let final := (run web started paused_for_a_second).1 in
  reachable web permitted ∧ startable web true permitted ∧
  duringRecording paused_for_a_second = true ∧
  legal false web started paused_for_a_second = true ∧
  Recording started ∧ recordingTime started = 0 ∧
  recordingTime final = elapsedOver true 0 paused_for_a_second ∧
  recordingTime (stopRecording web fin final).1 = elapsedOver true 0 paused_for_a_second ∧
  recordingTime
    (run web permitted [StartRecording true true; Tick; Tick; Tick; StopRecording fin]).1 = 3 ∧
  elapsed_spec web final.
Proof.
  assert (H : reachable web permitted).
  { apply (reach_step web _ (RequestPermissions true) false); [|reflexivity].
    apply reach_initial. }
  assert (Hs : startable web true permitted) by (split_and!; reflexivity).
  split; [exact H|]. split; [exact Hs|]. split; [reflexivity|]. split; [reflexivity|].
  exact (elapsed_counter_retained web permitted false true true paused_for_a_second
           (mkFinalize true None None "RIFF") H Hs eq_refl eq_refl).
Defined.

(** The recording of three seconds with a pause in it reads 3. *)
Example elapsed_sample :
  elapsedOver true 0 paused_for_a_second = 3 ∧
  recordingTime (run web permitted (StartRecording true true :: paused_for_a_second)).1 = 3.
Proof. split; reflexivity. Qed.

(** Stopping from Recording finalizes the web recorder and hands over
    exactly one file. *)
Lemma stop_web_recording_delivers_one fin s :
  mediaRecorderRef s = Some recording →
  ∃ file, (stopRecording web fin s).2 = [file]
          ∧ mediaRecorderRef (stopRecording web fin s).1 = Some inactive
          ∧ Idle (stopRecording web fin s).1.
Proof.
  intros H. unfold stopRecording. rewrite H. cbn.
  eexists. split; [reflexivity|]. split; reflexivity.
Qed.

(** On a device, stopping from Recording or Paused hands over exactly one
    asset when the backend finalizes the file. *)
Lemma stop_native_delivers_one fin s uri size :
  recordingRef s = true → unloaded fin = true →
  finalUri fin = Some uri → uri ≠ "" → fileInfo fin = Some size →
  (stopRecording native fin s).2 = [NativeFile uri "audio/m4a" "recording.m4a" size]
  ∧ recordingRef (stopRecording native fin s).1 = false
  ∧ Idle (stopRecording native fin s).1.
Proof.
  intros Hr Hu Hf Hne Hi. unfold stopRecording. rewrite Hr, Hu, Hf, Hi. cbn.
  destruct (decide (uri = "")); [contradiction|]. cbn.
  split; [reflexivity|]. split; reflexivity.
Qed.

(** C1 (evaluation of the code). On the web, the legal cycle start, pause,
    stop returns the component to Idle but calls [onRecordingComplete]
    not once: [stopRecording] stops the MediaRecorder only when its state
    is [recording], so the paused recorder is never finalized and stays
    [paused]; the next start is then refused by the recorder. *)
Theorem web_stop_while_paused_delivers_nothing (fin : Finalize) :
  legal false web initial (paused_cycle fin) = true ∧
  (run web initial (paused_cycle fin)).2 = [] ∧
  Idle (run web initial (paused_cycle fin)).1 ∧
  mediaRecorderRef (run web initial (paused_cycle fin)).1 = Some paused ∧
  Idle (startRecording web true true (run web initial (paused_cycle fin)).1).
Proof. repeat split. Qed.

End VoiceRecorderProps.

(** ** Properties of the orchestrator *)
Module OrchestratorProps.
Import AppHandlers HistoryHandlers ExchangeSpec StoreFacts.

#[local] Arguments apply : simpl never.
#[local] Arguments drive : simpl never.
#[local] Arguments driveWith : simpl never.
#[local] Arguments transcript : simpl never.
#[local] Arguments allocArray : simpl never.
#[local] Arguments writeArray : simpl never.
#[local] Arguments arrayAt : simpl never.

(** C2. When [handleVoiceMessage] reaches its first [await] - the voice
    request, the first network request it issues - the placeholder user
    message with the interim text has already been appended: it precedes
    the request in the log, and it is the last message of the transcript
    while the handler is suspended. *)
Theorem placeholder_before_first_request
  (platform : Platform) (conv : option string) (audio : AudioData)
  (amb : Ambient) (s : Store) :
  let r := exec amb (handleVoiceMessage platform conv audio) s in
  let placeholder := userMessage (dateNow amb) (isoString amb) processingText in
  let request := Fetch (Api.PostVoice audio (if truthy conv then conv else None)) in
  (∃ before,
      log r = before ++ [Requested request] ∧
      (∀ q, ¬ In (Requested q) before) ∧
      In (Did (AppendMessage placeholder)) before) ∧
  (∃ k, suspended r = [mkTask request k]) ∧
  transcript (store r) = transcript s ++ [placeholder] ∧
  text placeholder = processingText ∧ isUser placeholder = true.
Proof.
  cbn. split_and!; try reflexivity.
  - eexists [_; _; _; _; _; _; _]. split; [reflexivity|]. split.
    + intros q [H|[H|[H|[H|[H|[H|[H|[]]]]]]]]; discriminate.
    + cbn. auto 10.
  - eexists. reflexivity.
  - store_simpl. reflexivity.
Qed.

(** C6. When the voice reply request fails, the transcript grows by the
    placeholder user message, still carrying its interim text, followed
    by one assistant message with the fixed error text; these are the
    only appends, the voice request is the only request issued (no
    retry, no speech request), and the handler ends with the flag
    cleared. *)
Theorem failed_reply_appends_one_error
  (platform : Platform) (conv : option string) (audio : AudioData)
  (w : World) (s : Store) :
  let l := exchange w (handleVoiceMessage platform conv audio) s in
  let placeholder :=
    {| id := dateNow (ambientAt w 0);
       text := "음성 메시지를 처리 중입니다...";
       isUser := true;
       emotion := None; emotionProbability := None; emotionTop3 := None;
       audioUrl := None;
       timestamp := isoString (ambientAt w 0) |} in
  replyFails w (voiceRequest conv audio) →
  ∃ now iso,
    let failure :=
      {| id := now + 2;
         text := "죄송합니다. 메시지 처리 중 오류가 발생했습니다. 다시 시도해주세요.";
         isUser := false;
         emotion := None; emotionProbability := None; emotionTop3 := None;
         audioUrl := None;
         timestamp := iso |} in
    transcript (current l) = transcript s ++ [placeholder; failure] ∧
    appended (history_log l) = [placeholder; failure] ∧
    requests (history_log l)
    = [Api.PostVoice audio (if truthy conv then conv else None)] ∧
    pending l = [] ∧
    App.isProcessing (app (current l)) = false.
Proof.
  intros l placeholder Hfail. subst l placeholder.
  unfold replyFails in Hfail. unfold exchange, handleVoiceMessage. cbn.
  turn. fold (voiceRequest conv audio).
  destruct (answerAt w 1 (Fetch (voiceRequest conv audio))) as [resp|]; cbn.
  - destruct Hfail as [Hok|Hbody].
    + rewrite Hok. cbn. turn.
      exists (dateNow (ambientAt w 1)), (isoString (ambientAt w 1)).
      store_simpl. rewrite <- app_assoc. split_and!; reflexivity.
    + destruct (Api.ok resp); cbn.
      * turn. rewrite Hbody. cbn. turn.
        exists (dateNow (ambientAt w 2)), (isoString (ambientAt w 2)).
        store_simpl. rewrite <- app_assoc. split_and!; reflexivity.
      * turn.
        exists (dateNow (ambientAt w 1)), (isoString (ambientAt w 1)).
        store_simpl. rewrite <- app_assoc. split_and!; reflexivity.
  - turn.
    exists (dateNow (ambientAt w 1)), (isoString (ambientAt w 1)).
    store_simpl. rewrite <- app_assoc. split_and!; reflexivity.
Qed.

Lemma failed_reply_appends_one_error_witness :
  let w := replyRejected in
  let l := exchange w (handleVoiceMessage web None sampleAudio) initialStore in
  let placeholder :=
    {| id := dateNow (ambientAt w 0);
       text := "음성 메시지를 처리 중입니다...";
       isUser := true;
       emotion := None; emotionProbability := None; emotionTop3 := None;
       audioUrl := None;
       timestamp := isoString (ambientAt w 0) |} in
  replyFails w (voiceRequest None sampleAudio) ∧
  ∃ now iso,
    let failure :=
      {| id := now + 2;
         text := "죄송합니다. 메시지 처리 중 오류가 발생했습니다. 다시 시도해주세요.";
         isUser := false;
         emotion := None; emotionProbability := None; emotionTop3 := None;
         audioUrl := None;
         timestamp := iso |} in
    transcript (current l) = transcript initialStore ++ [placeholder; failure] ∧
    appended (history_log l) = [placeholder; failure] ∧
    requests (history_log l) = [Api.PostVoice sampleAudio None] ∧
    pending l = [] ∧
    App.isProcessing (app (current l)) = false.
Proof.
  split; [exact I|].
  exact (failed_reply_appends_one_error web None sampleAudio replyRejected initialStore I).
Defined.

(** The path the handlers do have for a speech failure: when the reply
    was read and the speech request is answered with a non-success
    status, every exchange, voice or text, ends with the user message
    followed by one assistant message that carries the reply text and
    no audio handle; the [catch] block does not run. *)
Lemma unsuccessful_speech_status_keeps_reply
  (platform : Platform) (conv : option string) (sub : Submission)
  (w : World) (s : Store) (reply : string) (tts : Api.Response) :
  let l := exchange w (handlerOf platform conv sub) s in
  replyRead w conv sub reply →
  answerAt w 3 (Fetch (Api.PostTts reply)) = Some tts →
  Api.ok tts = false →
  (∃ earlier mine,
     transcript (current l)
     = earlier ++ [mine;
                   {| id := dateNow (ambientAt w 3) + 1;
                      text := reply;
                      isUser := false;
                      emotion := None; emotionProbability := None; emotionTop3 := None;
                      audioUrl := None;
                      timestamp := isoString (ambientAt w 3) |}] ∧
     length earlier = length (transcript s) ∧ isUser mine = true) ∧
  length (appended (history_log l)) = 2%nat ∧
  caught (history_log l) = false ∧
  pending l = [] ∧
  App.isProcessing (app (current l)) = false.
Proof.
  intros l Hread Htts Hbad. subst l.
  destruct sub as [audio|textMessage]; cbn [replyRead handlerOf] in *.
  - destruct Hread as (data & (resp & Hresp & Hok & Hdata) & <-).
    unfold exchange, handleVoiceMessage. cbn.
    turn. fold (voiceRequest conv audio). rewrite Hresp. cbn. rewrite Hok. cbn.
    turn. rewrite Hdata. cbn.
    turn. rewrite Htts. cbn. unfold speechUrl. rewrite Hbad. cbn.
    finish_turns; store_simpl.
    all: rewrite map_app; cbn.
    all: destruct (decide (dateNow (ambientAt w 0) = dateNow (ambientAt w 0)));
      [|congruence].
    all: rewrite <- app_assoc; cbn.
    all: split_and!; try reflexivity.
    all: eexists _, _; split; [reflexivity|]; rewrite length_map; split; reflexivity.
  - destruct Hread as (resp & data & Hresp & Hok & Hdata & <-).
    unfold exchange, handleTextMessage. cbn.
    turn. rewrite Hresp. cbn. rewrite Hok. cbn.
    turn. rewrite Hdata. cbn.
    turn. rewrite Htts. cbn. unfold speechUrl. rewrite Hbad. cbn.
    finish_turns; store_simpl.
    all: rewrite <- app_assoc; cbn.
    all: split_and!; try reflexivity.
    all: eexists _, _; split; [reflexivity|]; split; reflexivity.
Qed.

Example unsuccessful_speech_status_sample :
  let l := exchange speechUnavailable (handlerOf web None (VoiceSubmission sampleAudio))
             initialStore in
  replyRead speechUnavailable None (VoiceSubmission sampleAudio) "많이 힘드셨겠어요." ∧
  map text (transcript (current l)) = ["오늘 너무 힘들어요"; "많이 힘드셨겠어요."] ∧
  map audioUrl (transcript (current l)) = [None; None].
Proof.
  cbn zeta. split_and!; [|vm_compute; reflexivity..].
  exists sampleReply. split; [|reflexivity].
  exists ok200. split; [reflexivity|]. split; reflexivity.
Qed.

(** C5 (evaluation of the code). The reply request has succeeded and
    the speech request is rejected (the network fails between the two
    requests): in a voice exchange and in a text exchange alike the
    reply never reaches the transcript, which ends with the fixed error
    message instead - the rejection is thrown inside the one [try]
    block of the handler, while an answer with a non-success status is
    let pass. *)
Theorem rejected_speech_request_replaces_reply :
  let w := speechRejected in
  let spoken := exchange w (handleVoiceMessage web None sampleAudio) initialStore in
  let typed := exchange w (handleTextMessage web None "오늘 너무 힘들어요") initialStore in
  (answerAt w 1 (Fetch (Api.PostVoice sampleAudio None)) = Some ok200 ∧
   answerAt w 2 (JsonVoice ok200) = Some sampleReply ∧
   Api.llm_response sampleReply = "많이 힘드셨겠어요.") ∧
  (answerAt w 1 (Fetch (Api.PostText "오늘 너무 힘들어요" None)) = Some ok200 ∧
   answerAt w 2 (JsonText ok200) = Some (Api.mkTextReply "많이 힘드셨겠어요.")) ∧
  Api.ok ok200 = true ∧
  answerAt w 3 (Fetch (Api.PostTts "많이 힘드셨겠어요.")) = None ∧
  map text (transcript (current spoken))
  = ["오늘 너무 힘들어요"; "죄송합니다. 메시지 처리 중 오류가 발생했습니다. 다시 시도해주세요."] ∧
  map isUser (transcript (current spoken)) = [true; false] ∧
  map text (transcript (current typed))
  = ["오늘 너무 힘들어요"; "죄송합니다. 메시지 처리 중 오류가 발생했습니다. 다시 시도해주세요."] ∧
  map isUser (transcript (current typed)) = [true; false] ∧
  requests (history_log spoken)
  = [Api.PostVoice sampleAudio None; Api.PostTts "많이 힘드셨겠어요."] ∧
  requests (history_log typed)
  = [Api.PostText "오늘 너무 힘들어요" None; Api.PostTts "많이 힘드셨겠어요."] ∧
  pending spoken = [] ∧ pending typed = [].
Proof. cbn zeta. split_and!; vm_compute; reflexivity. Qed.

(** C7 (as stated) fails on a transport failure: the flag is cleared,
    but no history refresh is started and the history component is left
    untouched, although it is mounted. *)
Lemma failed_reply_starts_no_refresh :
  let l := exchange replyRejected (handleVoiceMessage web None sampleAudio) initialStore in
  replyFails replyRejected (voiceRequest None sampleAudio) ∧
  (∀ n, historyMounted (ambientAt replyRejected n) = true) ∧
  pending l = [] ∧
  App.isProcessing (app (current l)) = false ∧
  refreshes (history_log l) = 0%nat ∧
  history (current l) = history initialStore.
Proof. cbn zeta. split_and!; try exact I; try (intros n); vm_compute; reflexivity. Qed.

(** The reply was read: the answers met on the way say so. *)
Ltac read_reply :=
  cbn [replyRead text]; unfold replySucceeds, voiceRequest;
  first [ eexists; split; [eexists; split_and!; eassumption|reflexivity]
        | eexists _, _; split_and!; first [eassumption|reflexivity] ].

(** With the promises of the exchange itself settling, every exchange
    ends with the flag cleared, and what may still be pending is the
    history refresh. When its [catch] block ran, the last message it
    appended is the fixed-text error message and it started no refresh;
    otherwise the last message is an assistant message, and one refresh
    was started if the history component is mounted. *)
Lemma exchange_ends platform conv sub w s settles :
  (∀ q, ¬ refreshQuery q → settles q = true) →
  let l := exchangeWith settles w (handlerOf platform conv sub) s in
  Forall (fun t => refreshQuery (awaiting t)) (pending l) ∧
  App.isProcessing (app (current l)) = false ∧
  (caught (history_log l) = true →
     refreshes (history_log l) = 0%nat ∧
     ∃ failure, last (appended (history_log l)) = Some failure ∧
                text failure = "죄송합니다. 메시지 처리 중 오류가 발생했습니다. 다시 시도해주세요." ∧
                isUser failure = false) ∧
  (caught (history_log l) = false →
     (∃ reply, last (appended (history_log l)) = Some reply ∧
               last (transcript (current l)) = Some reply ∧
               isUser reply = false ∧
               replyRead w conv sub (text reply)) ∧
     ((∀ n, historyMounted (ambientAt w n) = true) → refreshes (history_log l) = 1%nat) ∧
     ((∀ n, historyMounted (ambientAt w n) = false) → refreshes (history_log l) = 0%nat)).
Proof.
  intros Hsettle l. subst l.
  remember (exchangeWith settles w (handlerOf platform conv sub) s) as l eqn:Hl.
  revert Hl.
  destruct sub as [audio|textMessage];
    unfold exchangeWith, handlerOf, handleVoiceMessage, handleTextMessage, speechUrl; cbn.
  - finish_turnsWith; intros ->; cbn; store_simpl.
    all: split; [repeat constructor|]; split; [reflexivity|].
    all: split; [try discriminate|try discriminate]; intros _.
    all: try (split; [reflexivity|eexists; split_and!; reflexivity]).
    all: split;
      [eexists; split_and!; [reflexivity|rewrite last_snoc; reflexivity|reflexivity|read_reply]|].
    all: split; intros Hm; rewrite Hm in *; first [reflexivity|discriminate].
  - finish_turnsWith; intros ->; cbn; store_simpl.
    all: split; [repeat constructor|]; split; [reflexivity|].
    all: split; [try discriminate|try discriminate]; intros _.
    all: try (split; [reflexivity|eexists; split_and!; reflexivity]).
    all: split;
      [eexists; split_and!; [reflexivity|rewrite last_snoc; reflexivity|reflexivity|read_reply]|].
    all: split; intros Hm; rewrite Hm in *; first [reflexivity|discriminate].
Qed.

(** The session state and the transcript an exchange leaves are those
    of the run in which the refresh is never answered. *)
Lemma refresh_leaves_session platform conv sub w s settles :
  (∀ q, ¬ refreshQuery q → settles q = true) →
  let l := exchangeWith settles w (handlerOf platform conv sub) s in
  let l0 := exchangeWith refreshNeverSettles w (handlerOf platform conv sub) s in
  app (current l) = app (current l0) ∧
  transcript (current l) = transcript (current l0).
Proof.
  intros Hsettle l l0. subst l l0.
  remember (exchangeWith settles w (handlerOf platform conv sub) s) as l eqn:Hl.
  remember (exchangeWith refreshNeverSettles w (handlerOf platform conv sub) s)
    as l0 eqn:Hl0.
  revert Hl Hl0.
  destruct sub as [audio|textMessage];
    unfold exchangeWith, handlerOf, handleVoiceMessage, handleTextMessage, speechUrl; cbn.
  - repeat (split_answers;
            try rewrite (driveWith_S settles);
            try rewrite (driveWith_S refreshNeverSettles);
            progress cbn; split_settles; rewrite ?driveWith_O).
    all: split_answers.
    all: intros -> ->; cbn; app_simpl; store_simpl.
    all: split; reflexivity.
  - repeat (split_answers;
            try rewrite (driveWith_S settles);
            try rewrite (driveWith_S refreshNeverSettles);
            progress cbn; split_settles; rewrite ?driveWith_O).
    all: split_answers.
    all: intros -> ->; cbn; app_simpl; store_simpl.
    all: split; reflexivity.
Qed.

(** The run in which the refresh is never answered depends on the
    answers to the exchange's own promises only. *)
Lemma own_answers_decide platform conv sub w s (answers' : nat → ∀ q, Answer q) :
  (∀ n q, ¬ refreshQuery q → answers' n q = answerAt w n q) →
  exchangeWith refreshNeverSettles (mkWorld (ambientAt w) answers')
    (handlerOf platform conv sub) s
  = exchangeWith refreshNeverSettles w (handlerOf platform conv sub) s.
Proof.
  intros Hagree.
  destruct sub as [audio|textMessage];
    unfold exchangeWith, handlerOf, handleVoiceMessage, handleTextMessage, speechUrl; cbn.
  - repeat (rewrite ?Hagree by (cbn; tauto); split_answers;
            try rewrite (driveWith_S _ _ w);
            try rewrite (driveWith_S _ _ (mkWorld (ambientAt w) answers'));
            progress cbn; rewrite ?driveWith_O).
    all: reflexivity.
  - repeat (rewrite ?Hagree by (cbn; tauto); split_answers;
            try rewrite (driveWith_S _ _ w);
            try rewrite (driveWith_S _ _ (mkWorld (ambientAt w) answers'));
            progress cbn; rewrite ?driveWith_O).
    all: reflexivity.
Qed.

(** Two runs that differ only in how the history refresh goes - what it
    is answered, and whether it is answered at all - leave the same
    session state behind. *)
Lemma refresh_outcome_irrelevant platform conv sub w s
  (settles settles' : Query → bool) (answers' : nat → ∀ q, Answer q) :
  (∀ q, ¬ refreshQuery q → settles q = true) →
  (∀ q, ¬ refreshQuery q → settles' q = true) →
  (∀ n q, ¬ refreshQuery q → answers' n q = answerAt w n q) →
  let l := exchangeWith settles w (handlerOf platform conv sub) s in
  let l' := exchangeWith settles' (mkWorld (ambientAt w) answers')
              (handlerOf platform conv sub) s in
  app (current l') = app (current l) ∧
  transcript (current l') = transcript (current l).
Proof.
  intros Hsettle Hsettle' Hagree l l'. subst l l'.
  destruct (refresh_leaves_session platform conv sub w s settles Hsettle) as [H1 H2].
  destruct (refresh_leaves_session platform conv sub (mkWorld (ambientAt w) answers') s
              settles' Hsettle') as [H3 H4].
  cbn zeta in *.
  rewrite H1, H2, H3, H4, (own_answers_decide platform conv sub w s answers' Hagree).
  split; reflexivity.
Qed.

(** C7 (as amended). Every exchange, voice or text, whose own promises
    settle ends with the in-progress flag cleared, whether or not the
    history refresh it started has settled: the refresh is not awaited,
    and it is the only thing that can still be pending. A refresh is
    started only when the [catch] block did not run, that is when an
    assistant reply was appended, and then once if the history
    component is mounted; when the [catch] block ran, the last message
    is the error message and no refresh is started. How the refresh
    goes, and whether it settles at all, does not change the session
    state and the transcript the exchange leaves. *)
Theorem flag_cleared_refresh_only_after_reply
  (platform : Platform) (conv : option string) (sub : Submission)
  (w : World) (s : Store)
  (settles settles' : Query → bool) (answers' : nat → ∀ q, Answer q) :
  (∀ q, ¬ refreshQuery q → settles q = true) →
  (∀ q, ¬ refreshQuery q → settles' q = true) →
  (∀ n q, ¬ refreshQuery q → answers' n q = answerAt w n q) →
  let l := exchangeWith settles w (handlerOf platform conv sub) s in
  let l' := exchangeWith settles' (mkWorld (ambientAt w) answers')
              (handlerOf platform conv sub) s in
  Forall (fun t => refreshQuery (awaiting t)) (pending l) ∧
  App.isProcessing (app (current l)) = false ∧
  (caught (history_log l) = true →
     refreshes (history_log l) = 0%nat ∧
     ∃ failure, last (appended (history_log l)) = Some failure ∧
                text failure = "죄송합니다. 메시지 처리 중 오류가 발생했습니다. 다시 시도해주세요." ∧
                isUser failure = false) ∧
  (caught (history_log l) = false →
     (∃ reply, last (appended (history_log l)) = Some reply ∧
               last (transcript (current l)) = Some reply ∧
               isUser reply = false ∧
               replyRead w conv sub (text reply)) ∧
     ((∀ n, historyMounted (ambientAt w n) = true) → refreshes (history_log l) = 1%nat) ∧
     ((∀ n, historyMounted (ambientAt w n) = false) → refreshes (history_log l) = 0%nat)) ∧
  app (current l') = app (current l) ∧
  transcript (current l') = transcript (current l).
Proof.
  intros Hsettle Hsettle' Hagree l l'.
  destruct (exchange_ends platform conv sub w s settles Hsettle) as (H1 & H2 & H3 & H4).
  destruct (refresh_outcome_irrelevant platform conv sub w s settles settles' answers'
              Hsettle Hsettle' Hagree) as [H5 H6].
  split_and!; assumption.
Qed.

Lemma refreshFailing_agrees n q :
  ¬ refreshQuery q → answerAt refreshFailing n q = answerAt goodWorld n q.
Proof.
  intros H. destruct q as [r| | | | | | | |]; try reflexivity; try (cbn in H; tauto).
  destruct r; try reflexivity; cbn in H; tauto.
Qed.

Lemma refreshNeverSettles_own q : ¬ refreshQuery q → refreshNeverSettles q = true.
Proof.
  intros H. destruct q as [r| | | | | | | |]; try reflexivity; try (cbn in H; tauto).
  destruct r; try reflexivity; cbn in H; tauto.
Qed.

Lemma flag_cleared_refresh_only_after_reply_witness :
  let sub := TextSubmission "오늘 너무 힘들어요" in
  let l := exchangeWith refreshNeverSettles goodWorld (handlerOf web None sub) initialStore in
  let l' := exchangeWith (fun _ => true) refreshFailing (handlerOf web None sub)
              initialStore in
  (∀ q, ¬ refreshQuery q → refreshNeverSettles q = true) ∧
  (∀ q, ¬ refreshQuery q → (fun _ : Query => true) q = true) ∧
  (∀ n q, ¬ refreshQuery q → answerAt refreshFailing n q = answerAt goodWorld n q) ∧
  Forall (fun t => refreshQuery (awaiting t)) (pending l) ∧
  App.isProcessing (app (current l)) = false ∧
  (caught (history_log l) = true →
     refreshes (history_log l) = 0%nat ∧
     ∃ failure, last (appended (history_log l)) = Some failure ∧
                text failure = "죄송합니다. 메시지 처리 중 오류가 발생했습니다. 다시 시도해주세요." ∧
                isUser failure = false) ∧
  (caught (history_log l) = false →
     (∃ reply, last (appended (history_log l)) = Some reply ∧
               last (transcript (current l)) = Some reply ∧
               isUser reply = false ∧
               replyRead goodWorld None sub (text reply)) ∧
     ((∀ n, historyMounted (ambientAt goodWorld n) = true) →
      refreshes (history_log l) = 1%nat) ∧
     ((∀ n, historyMounted (ambientAt goodWorld n) = false) →
      refreshes (history_log l) = 0%nat)) ∧
  app (current l') = app (current l) ∧
  transcript (current l') = transcript (current l).
Proof.
  split; [exact refreshNeverSettles_own|].
  split; [reflexivity|].
  split; [exact refreshFailing_agrees|].
  exact (flag_cleared_refresh_only_after_reply web None
           (TextSubmission "오늘 너무 힘들어요") goodWorld initialStore
           refreshNeverSettles (fun _ => true) (answerAt refreshFailing)
           refreshNeverSettles_own (fun _ _ => eq_refl) refreshFailing_agrees).
Defined.

(** The refresh is in the background: in the sample text exchange the
    flag is cleared and the reply is on screen while the request of the
    refresh is still unanswered. *)
Example flag_cleared_while_refresh_pending :
  let l := exchangeWith refreshNeverSettles goodWorld
             (handlerOf web None (TextSubmission "오늘 너무 힘들어요")) initialStore in
  App.isProcessing (app (current l)) = false ∧
  map awaiting (pending l) = [Fetch (Api.GetConversations 50)] ∧
  ConversationHistory.isLoading (history (current l)) = true ∧
  map text (transcript (current l)) = ["오늘 너무 힘들어요"; "많이 힘드셨겠어요."].
Proof. cbn zeta. split_and!; vm_compute; reflexivity. Qed.

(** Outside the statement above: on a device, when the FileReader
    fails, the promise the handler awaits never settles; the handler
    stays suspended in front of its [finally] block for good, with the
    flag set and no assistant message. *)
Lemma unsettled_read_keeps_flag (more : nat) :
  let l := driveWith readNeverSettles (4 + more) goodWorld 1
             (invoke (ambientAt goodWorld 0) (handleVoiceMessage native None sampleAudio)
                (mkLoop initialStore [] [])) in
  App.isProcessing (app (current l)) = true ∧
  map awaiting (pending l) = [ReadAsDataURL "RIFF"] ∧
  map text (transcript (current l)) = ["오늘 너무 힘들어요"].
Proof.
  cbn zeta. cbn [Nat.add].
  do 4 (rewrite driveWith_S; cbn).
  rewrite driveWith_stalled by reflexivity.
  split_and!; vm_compute; reflexivity.
Qed.

End OrchestratorProps.

(** ** Properties of the session state: history delete and load *)
Module SessionProps.
Import AppHandlers HistoryHandlers ExchangeSpec StoreFacts.

#[local] Arguments apply : simpl never.
#[local] Arguments drive : simpl never.
#[local] Arguments transcript : simpl never.
#[local] Arguments allocArray : simpl never.
#[local] Arguments writeArray : simpl never.
#[local] Arguments arrayAt : simpl never.

(** C9 (as stated) fails: a confirmed, successful delete of the active
    conversation empties the transcript. *)
Lemma delete_active_clears_transcript :
  let l := exchange goodWorld
             (deleteConversation
                (ConversationHistory.conversations (history activeSession))
                (App.conversationId (app activeSession))
                startNewConversation "conv_1")
             activeSession in
  App.conversationId (app activeSession) = Some "conv_1" ∧
  confirmed (ambientAt goodWorld 0) = true ∧
  answerAt goodWorld 1 (Fetch (Api.DeleteConversation "conv_1")) = Some ok200 ∧
  length (transcript activeSession) = 2%nat ∧
  ConversationHistory.conversations (history (current l)) = [secondSummary] ∧
  transcript (current l) = [].
Proof. cbn zeta. split_and!; vm_compute; reflexivity. Qed.

(** C9 (as amended). A confirmed delete that the service reports as
    successful stores the summaries its closure holds without the
    deleted one. When the deleted id is the active conversation id the
    component calls [onNewConversation] - in App.js
    [startNewConversation] - which empties the transcript, clears the
    last emotion and sets a newly generated id; for every other id the
    session state and the transcript are left as they are. *)
Theorem delete_active_starts_new_conversation
  (conversations : list Api.Summary) (currentId : option string) (target : string)
  (w : World) (s : Store) (resp : Api.Response) :
  confirmed (ambientAt w 0) = true →
  answerAt w 1 (Fetch (Api.DeleteConversation target)) = Some resp →
  Api.ok resp = true →
  let l := exchange w
             (deleteConversation conversations currentId startNewConversation target) s in
  ConversationHistory.conversations (history (current l))
  = filter (fun c => Api.summary_id c ≠ target) conversations ∧
  pending l = [] ∧
  (currentId = Some target →
     transcript (current l) = [] ∧
     App.currentEmotion (app (current l)) = None ∧
     App.conversationId (app (current l))
     = Some ("conv_" +:+ pretty (dateNow (ambientAt w 1)) +:+ "_"
             +:+ randomSuffix (ambientAt w 1))) ∧
  (currentId ≠ Some target →
     app (current l) = app s ∧ transcript (current l) = transcript s).
Proof.
  intros Hconfirm Hresp Hok l. subst l.
  unfold exchange, deleteConversation, startNewConversation, invoke, absorb. cbn.
  rewrite Hconfirm. cbn.
  rewrite drive_S. cbn. rewrite Hresp. cbn. rewrite Hok. cbn.
  destruct (decide (currentId = Some target)) as [Heq|Hne]; cbn.
  - rewrite drive_S. cbn. store_simpl. rewrite arrayAt_alloc.
    split_and!; try reflexivity; try tauto.
  - rewrite drive_S. cbn. store_simpl. app_simpl.
    split_and!; try reflexivity; try tauto.
Qed.

Lemma delete_active_starts_new_conversation_witness :
  let l := exchange goodWorld
             (deleteConversation [firstSummary; secondSummary] (Some "conv_1")
                startNewConversation "conv_1")
             activeSession in
  confirmed (ambientAt goodWorld 0) = true ∧
  answerAt goodWorld 1 (Fetch (Api.DeleteConversation "conv_1")) = Some ok200 ∧
  Api.ok ok200 = true ∧
  ConversationHistory.conversations (history (current l))
  = filter (fun c => Api.summary_id c ≠ "conv_1") [firstSummary; secondSummary] ∧
  pending l = [] ∧
  (Some "conv_1" = Some "conv_1" →
     transcript (current l) = [] ∧
     App.currentEmotion (app (current l)) = None ∧
     App.conversationId (app (current l))
     = Some ("conv_" +:+ pretty (dateNow (ambientAt goodWorld 1)) +:+ "_"
             +:+ randomSuffix (ambientAt goodWorld 1))) ∧
  (Some "conv_1" ≠ Some "conv_1" →
     app (current l) = app activeSession ∧
     transcript (current l) = transcript activeSession).
Proof.
  split; [reflexivity|]. split; [reflexivity|]. split; [reflexivity|].
  exact (delete_active_starts_new_conversation [firstSummary; secondSummary]
           (Some "conv_1") "conv_1" goodWorld activeSession ok200
           eq_refl eq_refl eq_refl).
Defined.

Lemma find_app_first {A} (p : A → bool) (l1 l2 : list A) :
  find p (l1 ++ l2) = match find p l1 with Some x => Some x | None => find p l2 end.
Proof.
  induction l1 as [|a l1 IH]; cbn; [reflexivity|].
  destruct (p a); [reflexivity|exact IH].
Qed.

(** Searching the reversed list from the front finds the most recent match. *)
Lemma find_rev_mostRecent (p : Message → bool) (l : list Message) :
  find p (rev l) = mostRecent p l.
Proof.
  unfold mostRecent. induction l as [|a l IH]; cbn [rev List.filter]; [reflexivity|].
  rewrite find_app_first, IH. cbn [find].
  destruct (p a).
  - rewrite last_cons. destruct (last (List.filter p l)); reflexivity.
  - destruct (last (List.filter p l)); reflexivity.
Qed.

Lemma arrayAt_SetMessages r' s r : arrayAt (apply (SetMessages r') s) r = arrayAt s r.
Proof. reflexivity. Qed.

Lemma arrayAt_SetConversationId c s r : arrayAt (apply (SetConversationId c) s) r = arrayAt s r.
Proof. reflexivity. Qed.

(** Writing into the array the messages cell holds changes the transcript. *)
Lemma transcript_writeArray r l s :
  App.messages (app s) = r → transcript (writeArray r l s) = l.
Proof.
  intros <-. unfold transcript. rewrite app_writeArray. apply arrayAt_writeArray.
Qed.

Lemma filter_map_comm {A B} (f : A → B) (p : B → bool) (l : list A) :
  List.filter p (map f l) = map f (List.filter (fun a => p (f a)) l).
Proof.
  induction l as [|a l IH]; cbn; [reflexivity|].
  destruct (p (f a)); cbn; rewrite IH; reflexivity.
Qed.

Lemma last_map {A B} (f : A → B) (l : list A) : last (map f l) = f <$> last l.
Proof.
  induction l as [|a l IH]; cbn [map]; [reflexivity|].
  rewrite !last_cons, IH. destruct (last l); reflexivity.
Qed.

(** The most recent display message that carries an emotion is the
    display of the most recent annotated user turn. *)
Lemma mostRecent_displayed (stored : list Api.StoredMessage) :
  mostRecent carriesEmotion (map displayMessage stored)
  = displayMessage <$> lastAnnotatedUserTurn stored.
Proof.
  unfold mostRecent, lastAnnotatedUserTurn.
  rewrite filter_map_comm, last_map. reflexivity.
Qed.

(** C10. After a successful load of a conversation with the stored
    messages [stored], the conversation id is the loaded one, the
    last-detected emotion is the annotation of the most recent stored
    message with role user that carries one, or what it was when there
    is none, and the message list holds the stored messages in display
    format in the reverse of the order the service sent them (the
    search reverses the stored array in place). *)
Theorem load_sets_most_recent_user_emotion
  (convId : string) (w : World) (s : Store)
  (resp : Api.Response) (stored : list Api.StoredMessage) :
  answerAt w 1 (Fetch (Api.GetConversation convId)) = Some resp →
  Api.ok resp = true →
  answerAt w 2 (JsonConversation resp) = Some (Api.mkConversation (Some stored)) →
  let l := exchange w (loadConversation convId) s in
  pending l = [] ∧
  App.conversationId (app (current l)) = Some convId ∧
  App.currentEmotion (app (current l))
  = match lastAnnotatedUserTurn stored with
    | Some turn => Api.emotion turn
    | None => App.currentEmotion (app s)
    end ∧
  transcript (current l)
  = rev (map (fun m =>
                {| id := Api.id m;
                   text := Api.content m;
                   isUser := String.eqb (Api.role m) "user";
                   emotion := Api.emotion m;
                   emotionProbability := Api.stored_emotion_probability m;
                   emotionTop3 := None;
                   audioUrl := None;
                   timestamp := Api.created_at m |}) stored).
Proof.
  intros Hresp Hok Hdata l. subst l.
  unfold exchange, loadConversation, invoke, absorb. cbn.
  rewrite drive_S. cbn. rewrite Hresp. cbn. rewrite Hok. cbn.
  rewrite drive_S. cbn. rewrite Hdata. cbn.
  rewrite !arrayAt_writeArray, !arrayAt_SetMessages, !arrayAt_alloc.
  change (fun m : Message => isUser m && truthy (emotion m)) with carriesEmotion.
  rewrite find_rev_mostRecent, mostRecent_displayed.
  destruct (lastAnnotatedUserTurn stored) as [turn|]; cbn.
  - rewrite drive_S. cbn. store_simpl.
    rewrite transcript_writeArray by reflexivity. split_and!; reflexivity.
  - rewrite drive_S. cbn. store_simpl.
    rewrite transcript_writeArray by reflexivity. split_and!; reflexivity.
Qed.

Lemma load_sets_most_recent_user_emotion_witness :
  let l := exchange historyWorld (loadConversation "conv_1") activeSession in
  answerAt historyWorld 1 (Fetch (Api.GetConversation "conv_1")) = Some ok200 ∧
  Api.ok ok200 = true ∧
  answerAt historyWorld 2 (JsonConversation ok200)
  = Some (Api.mkConversation (Some storedMessages)) ∧
  pending l = [] ∧
  App.conversationId (app (current l)) = Some "conv_1" ∧
  App.currentEmotion (app (current l))
  = match lastAnnotatedUserTurn storedMessages with
    | Some turn => Api.emotion turn
    | None => App.currentEmotion (app activeSession)
    end ∧
  transcript (current l)
  = rev (map (fun m =>
                {| id := Api.id m;
                   text := Api.content m;
                   isUser := String.eqb (Api.role m) "user";
                   emotion := Api.emotion m;
                   emotionProbability := Api.stored_emotion_probability m;
                   emotionTop3 := None;
                   audioUrl := None;
                   timestamp := Api.created_at m |}) storedMessages).
Proof.
  split; [reflexivity|]. split; [reflexivity|]. split; [reflexivity|].
  exact (load_sets_most_recent_user_emotion "conv_1" historyWorld activeSession ok200
           storedMessages eq_refl eq_refl eq_refl).
Defined.

(** The sample load shows the calm emotion of the later user turn, and
    the transcript runs backwards. *)
Example load_sample :
  let l := exchange historyWorld (loadConversation "conv_1") activeSession in
  (Api.emotion <$> lastAnnotatedUserTurn storedMessages) = Some (Some "calm") ∧
  App.currentEmotion (app (current l)) = Some "calm" ∧
  map id (transcript (current l)) = [4; 3; 2; 1] ∧
  map isUser (transcript (current l)) = [false; true; false; true].
Proof. cbn zeta. split_and!; vm_compute; reflexivity. Qed.

End SessionProps.

(** ** Properties of the two surfaces *)
Module ClientProps.
Import Client ClientSpec ExchangeSpec ExchangeMore AppHandlers StoreFacts.

#[local] Arguments apply : simpl never.
#[local] Arguments transcript : simpl never.

(** C3 (as stated) fails: with a text exchange in flight and the flag
    set, the character panel still offers its record control, and the
    recording it sends starts a second exchange. *)
Lemma second_exchange_while_processing :
  let inFlight := run web sampleAmbient 0 initial sendText in
  let events := sendText ++ recordOnCharacter sampleFinalize in
  let c := run web sampleAmbient 0 initial events in
  App.isProcessing (session inFlight) = true ∧
  length (outstanding inFlight) = 1%nat ∧
  offered false web sampleAmbient 0 initial events = true ∧
  App.isProcessing (session c) = true ∧
  length (outstanding c) = 2%nat.
Proof. cbn zeta. split_and!; vm_compute; reflexivity. Qed.

(** The control that sends a running recording is not gated either. *)
Example recording_sent_while_processing :
  let events := sendTextWhileRecording sampleFinalize in
  let c := run web sampleAmbient 0 initial events in
  offered false web sampleAmbient 0 initial events = true ∧
  length (outstanding c) = 2%nat.
Proof. cbn zeta. split; vm_compute; reflexivity. Qed.

(** C3 (as amended). While the flag is set, a text submission is
    rejected at the gate - the input and the send control are disabled
    and [handleTextSubmit] does nothing - and no recording can be
    started on the chat panel. On the character panel the record
    control is disabled exactly while [lastUsedPanel] is the character
    panel, which is where a voice exchange puts it: with [lastUsedPanel]
    on the chat panel it is offered as if nothing were in flight. The
    orchestrator itself has no gate and no queue: a submission that
    reaches it starts at once, its request joining those in flight. *)
Theorem processing_gates_text_and_recording_start
  (wide : bool) (platform : Platform) (amb : Ambient) (c : State)
  (conv : option string) (sub : Submission) :
  App.isProcessing (session c) = true →
  step platform amb c PressSend = c ∧
  enabled wide c PressSend = false ∧
  (∀ t, enabled wide c (ChangeText t) = false) ∧
  (∀ granted created,
     enabled wide c (Recorder chat_panel (VoiceRecorder.StartRecording granted created))
     = false) ∧
  (∀ granted created,
     enabled wide c (Recorder emotion_panel (VoiceRecorder.StartRecording granted created))
     = visible wide emotion_panel c
       && VoiceRecorder.permissionGranted (characterRecorder c)
       && negb (VoiceRecorder.isRecording (characterRecorder c))
       && bool_decide (App.lastUsedPanel (session c) = chat_panel)) ∧
  (let started := invoke amb (handlerOf platform conv sub) (loop c) in
   (∃ k, pending started
         = pending (loop c) ++ [mkTask (Fetch (requestOf conv sub)) k]) ∧
   requests (history_log started)
   = requests (history_log (loop c)) ++ [requestOf conv sub]).
Proof.
  unfold session. intros Hflag. split_and!.
  - unfold step, handleTextSubmit. cbn. rewrite Hflag.
    rewrite andb_false_r. reflexivity.
  - cbn. rewrite Hflag. apply andb_false_r.
  - intros t. cbn. rewrite Hflag. apply andb_false_r.
  - intros granted created. cbn. rewrite Hflag. rewrite !andb_false_r. reflexivity.
  - intros granted created. cbn. rewrite Hflag.
    destruct (App.lastUsedPanel (app (current (loop c)))); cbn;
      rewrite ?andb_false_r, ?andb_true_r, ?andb_assoc; reflexivity.
  - destruct sub as [audio|textMessage]; cbn; eexists; reflexivity.
  - unfold requests, invoke, absorb. cbn [history_log]. rewrite omap_app.
    destruct sub as [audio|textMessage]; reflexivity.
Qed.

Lemma processing_gates_text_and_recording_start_witness :
  let c := run web sampleAmbient 0 initial (recordWithTextTyped sampleFinalize) in
  let sub := TextSubmission "잠깐만요" in
  (offered true web sampleAmbient 0 initial (recordWithTextTyped sampleFinalize) = true ∧
   trim (textInput c) = "잠깐만요" ∧
   VoiceRecorder.permissionGranted (chatRecorder c) = true ∧
   VoiceRecorder.isRecording (chatRecorder c) = false ∧
   VoiceRecorder.permissionGranted (characterRecorder c) = true ∧
   VoiceRecorder.isRecording (characterRecorder c) = false ∧
   App.lastUsedPanel (session c) = emotion_panel ∧
   length (outstanding c) = 1%nat) ∧
  App.isProcessing (session c) = true ∧
  step web (sampleAmbient 6) c PressSend = c ∧
  enabled true c PressSend = false ∧
  (∀ t, enabled true c (ChangeText t) = false) ∧
  (∀ granted created,
     enabled true c (Recorder chat_panel (VoiceRecorder.StartRecording granted created))
     = false) ∧
  (∀ granted created,
     enabled true c (Recorder emotion_panel (VoiceRecorder.StartRecording granted created))
     = visible true emotion_panel c
       && VoiceRecorder.permissionGranted (characterRecorder c)
       && negb (VoiceRecorder.isRecording (characterRecorder c))
       && bool_decide (App.lastUsedPanel (session c) = chat_panel)) ∧
  (let started := invoke (sampleAmbient 6) (handlerOf web None sub) (loop c) in
   (∃ k, pending started
         = pending (loop c) ++ [mkTask (Fetch (requestOf None sub)) k]) ∧
   requests (history_log started)
   = requests (history_log (loop c)) ++ [requestOf None sub]).
Proof.
  split; [split_and!; vm_compute; reflexivity|].
  split; [vm_compute; reflexivity|].
  apply (processing_gates_text_and_recording_start true web (sampleAmbient 6)
           (run web sampleAmbient 0 initial (recordWithTextTyped sampleFinalize))
           None (TextSubmission "잠깐만요")).
  vm_compute; reflexivity.
Defined.

(** With the same voice exchange in flight and the flag cleared by hand,
    the three controls are offered: it is the flag that closes them. *)
Example controls_offered_without_flag :
  let c := run web sampleAmbient 0 initial (recordWithTextTyped sampleFinalize) in
  let idle := withLoop (invoke (sampleAmbient 6) (Do (SetIsProcessing false) Ret) (loop c)) c in
  enabled true c PressSend = false ∧
  enabled true idle PressSend = true ∧
  enabled true c (Recorder chat_panel (VoiceRecorder.StartRecording true true)) = false ∧
  enabled true idle (Recorder chat_panel (VoiceRecorder.StartRecording true true)) = true ∧
  enabled true c (Recorder emotion_panel (VoiceRecorder.StartRecording true true)) = false ∧
  enabled true idle (Recorder emotion_panel (VoiceRecorder.StartRecording true true)) = true.
Proof. cbn zeta. split_and!; vm_compute; reflexivity. Qed.

(** Whatever surface hands a recording over, [handleVoiceMessage] puts
    the focus on the character panel, which then displays the interim
    transcript. *)
Lemma deliver_focuses_character_panel platform amb surface c audio :
  let c' := deliver platform amb surface c audio in
  initiator c' = Some surface ∧
  App.lastUsedPanel (session c') = emotion_panel ∧
  rendered emotion_panel (current (loop c')) = mkTransient processingText "" None.
Proof.
  cbn zeta. split; [reflexivity|]. split; reflexivity.
Qed.

(** C4 (evaluation of the code). A recording sent from the chat panel
    starts an exchange whose transient values the character panel - not
    the surface that started it - displays: [handleVoiceMessage] sets
    [lastUsedPanel] to the character panel whatever its caller. *)
Theorem voice_from_chat_renders_on_character_panel
  (wide : bool) (platform : Platform) :
  let events := recordOnChat sampleFinalize in
  let c := run platform sampleAmbient 0 initial events in
  offered wide platform sampleAmbient 0 initial events = true ∧
  initiator c = Some chat_panel ∧
  length (outstanding c) = 1%nat ∧
  App.lastUsedPanel (session c) = emotion_panel ∧
  rendered emotion_panel (current (loop c)) = mkTransient processingText "" None ∧
  rendered chat_panel (current (loop c)) = nothing.
Proof.
  cbn zeta. destruct wide, platform; split_and!; vm_compute; reflexivity.
Qed.

End ClientProps.

(** ** More properties of the recording state machine *)
Module RecorderCleanupProps.
Import VoiceRecorder RecorderSpec RecorderCleanup VoiceRecorderProps.

Lemma refs_inv_step p s e processing :
  timer_inv s → refs_inv p s → enabled processing s e = true → refs_inv p (step p s e).1.
Proof.
  intros (Hidle & Hperm & _) [Hchunks Hrefs] Hen.
  destruct e as [g|g c| | |fin|]; cbn in Hen |- *.
  - apply negb_true_iff in Hen.
    assert (Hr : isRecording s = false).
    { destruct (isRecording s); [rewrite Hperm in Hen|]; congruence. }
    unfold requestPermissions.
    destruct p, g; split; cbn; auto; destruct Hrefs as (? & ? & ?); split_and!;
      auto; congruence.
  - apply andb_prop in Hen as [Hen _]. apply andb_prop in Hen as [Hg Hr].
    apply negb_true_iff in Hr. specialize (Hidle Hr).
    unfold startRecording. rewrite Hg; cbn.
    destruct p.
    + destruct Hrefs as (Href & Hrec & Hnot).
      destruct (mediaRecorderRef s) as [[| |]|] eqn:Hm; split; cbn; auto;
        split_and!; auto; try congruence.
      intros _. rewrite Hidle. reflexivity.
    + destruct Hrefs as (Hm & Hrec).
      destruct c; split; cbn; auto.
  - apply andb_prop in Hen as [Hen Hp]. apply andb_prop in Hen as [_ Hr].
    apply negb_true_iff in Hp.
    split; cbn; auto. destruct p.
    + destruct Hrefs as (Href & Hrec & Hnot). specialize (Hrec Hr).
      rewrite Hp in Hrec. rewrite Hrec. split_and!; auto; congruence.
    + exact Hrefs.
  - apply andb_prop in Hen as [Hen Hp]. apply andb_prop in Hen as [_ Hr].
    split; cbn; auto. destruct p.
    + destruct Hrefs as (Href & Hrec & Hnot). specialize (Hrec Hr).
      rewrite Hp in Hrec. rewrite Hrec. split_and!; auto; congruence.
    + exact Hrefs.
  - apply andb_prop in Hen as [_ Hr].
    unfold stopRecording. destruct p.
    + destruct Hrefs as (Href & Hrec & Hnot). specialize (Hrec Hr).
      rewrite Hrec. destruct (isPaused s); split; cbn; auto;
        split_and!; auto; congruence.
    + destruct Hrefs as (Hm & Hrec).
      destruct (recordingRef s), (unloaded fin), (finalUri fin) as [u|]; cbn;
        try (split; cbn; auto; split; auto; congruence);
        destruct (decide (u = "")), (fileInfo fin); split; cbn; auto;
          split; auto; congruence.
  - split; cbn; auto.
Qed.

Lemma reachable_refs_inv p s : reachable p s → refs_inv p s.
Proof.
  induction 1 as [|s e processing Hreach IH Hen].
  - split; [reflexivity|]. destruct p; cbn; split_and!; auto; congruence.
  - eapply refs_inv_step; eauto using reachable_timer_inv.
Qed.

(** On the web, sending from Recording stops the recorder and hands over
    exactly one file, made of the data of this recording alone; the
    component is Idle again with the recorder inactive, the chunk buffer
    empty and no timer alive. *)
Theorem web_stop_hands_over_this_recording (s : State) (fin : Finalize) :
  reachable web s → Recording s →
  (stopRecording web fin s).2 = [WebFile "recording.webm" "audio/webm" [lastChunk fin]] ∧
  Idle (stopRecording web fin s).1 ∧
  mediaRecorderRef (stopRecording web fin s).1 = Some inactive ∧
  audioChunksRef (stopRecording web fin s).1 = [] ∧
  intervals (stopRecording web fin s).1 = [].
Proof.
  intros Hreach [Hr Hp].
  pose proof (clearTimer_inv s (reachable_timer_inv web s Hreach)) as Hclr.
  destruct (reachable_refs_inv web s Hreach) as (Hchunks & _ & Hrec & _).
  specialize (Hrec Hr). rewrite Hp in Hrec.
  unfold stopRecording. rewrite Hrec, Hchunks, Hclr. cbn. split_and!; reflexivity.
Qed.

Lemma web_stop_hands_over_this_recording_witness :
  reachable web one_second_in ∧ Recording one_second_in ∧
  let r := stopRecording web (mkFinalize true None None "RIFF") one_second_in in
  r.2 = [WebFile "recording.webm" "audio/webm" ["RIFF"]] ∧
  Idle r.1 ∧ mediaRecorderRef r.1 = Some inactive ∧
  audioChunksRef r.1 = [] ∧ intervals r.1 = [].
Proof.
  assert (H : reachable web one_second_in).
  { apply (reach_step web _ Tick false); [|reflexivity].
    apply (reach_step web _ (StartRecording true true) false); [|reflexivity].
    apply (reach_step web _ (RequestPermissions true) false); [|reflexivity].
    apply reach_initial. }
  assert (HR : Recording one_second_in) by (split; reflexivity).
  split; [exact H|]. split; [exact HR|].
  exact (web_stop_hands_over_this_recording one_second_in
           (mkFinalize true None None "RIFF") H HR).
Defined.

(** On a device, sending from Recording or Paused hands over exactly the
    finalized file - one asset when the recording unloads, its URI is
    not empty and its file information is read, none otherwise - and
    the component is Idle with no timer alive; the recording object is
    dropped unless unloading it failed. *)
Theorem native_stop_hands_over_finalized_file (s : State) (fin : Finalize) :
  reachable native s → isRecording s = true →
  (stopRecording native fin s).2 = nativeAsset fin ∧
  Idle (stopRecording native fin s).1 ∧
  recordingRef (stopRecording native fin s).1 = negb (unloaded fin) ∧
  intervals (stopRecording native fin s).1 = [].
Proof.
  intros Hreach Hr.
  pose proof (clearTimer_inv s (reachable_timer_inv native s Hreach)) as Hclr.
  destruct (reachable_refs_inv native s Hreach) as (_ & _ & Hrec).
  specialize (Hrec Hr).
  unfold stopRecording, nativeAsset. rewrite Hrec, Hclr. cbn.
  destruct (unloaded fin); cbn; [|split_and!; reflexivity].
  destruct (finalUri fin) as [uri|]; cbn; [|split_and!; reflexivity].
  destruct (decide (uri = "")); cbn.
  - destruct (fileInfo fin); split_and!; reflexivity.
  - destruct (fileInfo fin); split_and!; reflexivity.
Qed.

Lemma paused_on_device_reachable : reachable native paused_on_device.
Proof.
  apply (reach_step native _ PauseRecording false); [|reflexivity].
  apply (reach_step native _ Tick false); [|reflexivity].
  apply (reach_step native _ (StartRecording true true) false); [|reflexivity].
  apply (reach_step native _ (RequestPermissions true) false); [|reflexivity].
  apply reach_initial.
Qed.

Lemma native_stop_hands_over_finalized_file_witness :
  let fin := mkFinalize true (Some "file:///cache/recording.m4a") (Some (Some 20480)) "" in
  reachable native paused_on_device ∧ isRecording paused_on_device = true ∧
  (stopRecording native fin paused_on_device).2 = nativeAsset fin ∧
  Idle (stopRecording native fin paused_on_device).1 ∧
  recordingRef (stopRecording native fin paused_on_device).1 = negb (unloaded fin) ∧
  intervals (stopRecording native fin paused_on_device).1 = [].
Proof.
  split; [exact paused_on_device_reachable|]. split; [reflexivity|].
  exact (native_stop_hands_over_finalized_file paused_on_device _
           paused_on_device_reachable eq_refl).
Defined.

Lemma stuck_step s e processing :
  stuck s → enabled processing s e = true →
  stuck (step web s e).1 ∧ (step web s e).2 = [].
Proof.
  intros (Hg & Hr & Hm) Hen. unfold stuck.
  destruct e as [g|g c| | |fin|]; cbn in Hen |- *.
  - rewrite Hg in Hen. discriminate.
  - unfold startRecording. rewrite Hg, Hm. cbn. auto.
  - rewrite Hr, andb_false_r in Hen. discriminate.
  - rewrite Hr, andb_false_r in Hen. discriminate.
  - rewrite Hr, andb_false_r in Hen. discriminate.
  - auto.
Qed.

(** Once a web recording has been sent while paused, the recorder never
    records again: whatever controls the user operates afterwards, the
    component stays Idle with the MediaRecorder paused, and no recording
    is ever handed over. *)
Theorem web_recorder_stays_stuck (s : State) (es : list Event) (processing : bool) :
  stuck s → legal processing web s es = true →
  stuck (run web s es).1 ∧ (run web s es).2 = [].
Proof.
  revert s. induction es as [|e es IH]; intros s Hstuck Hlegal; [split; auto|].
  cbn [legal] in Hlegal. apply andb_prop in Hlegal as [Hen Hrest].
  destruct (stuck_step s e processing Hstuck Hen) as [Hs Ho].
  destruct (IH _ Hs Hrest) as [Hs' Ho'].
  rewrite run_cons. cbn [fst snd]. rewrite Ho, Ho'. auto.
Qed.

Lemma web_recorder_stays_stuck_witness :
  let s := (run web initial (paused_cycle (mkFinalize true None None "RIFF"))).1 in
  let es := [StartRecording true true; Tick; StartRecording true true] in
  stuck s ∧ legal false web s es = true ∧
  stuck (run web s es).1 ∧ (run web s es).2 = [].
Proof.
  assert (H : stuck (run web initial (paused_cycle (mkFinalize true None None "RIFF"))).1)
    by (split_and!; reflexivity).
  split; [exact H|]. split; [reflexivity|].
  exact (web_recorder_stays_stuck _ [StartRecording true true; Tick; StartRecording true true]
           false H eq_refl).
Defined.

(** After a refused permission the component is Idle and offers no
    record control; pressing start without the permission only asks for
    it again and records nothing even when it is then granted; once the
    permission is granted, the next start reaches Recording with the
    counter at 0. *)
Theorem permission_retry_reaches_recording (p : Platform) (s : State) :
  reachable p s → permissionGranted s = false →
  let denied := (step p s (RequestPermissions false)).1 in
  let granted := (step p denied (RequestPermissions true)).1 in
  Idle denied ∧
  (∀ processing g c, enabled processing denied (StartRecording g c) = false) ∧
  Idle (startRecording p true true denied) ∧
  Recording (startRecording p true true granted) ∧
  recordingTime (startRecording p true true granted) = 0.
Proof.
  intros Hreach Hno.
  destruct (reachable_timer_inv p s Hreach) as (Hidle & Hperm & _).
  assert (Hr : isRecording s = false).
  { destruct (isRecording s); [rewrite Hperm in Hno|]; congruence. }
  specialize (Hidle Hr).
  cbn. unfold Idle, Recording, requestPermissions, startRecording.
  destruct p; cbn; rewrite ?Hr, ?Hidle; split_and!; auto.
Qed.

Lemma permission_retry_reaches_recording_witness :
  let denied := (step web initial (RequestPermissions false)).1 in
  let granted := (step web denied (RequestPermissions true)).1 in
  reachable web initial ∧ permissionGranted initial = false ∧
  Idle denied ∧
  (∀ processing g c, enabled processing denied (StartRecording g c) = false) ∧
  Idle (startRecording web true true denied) ∧
  Recording (startRecording web true true granted) ∧
  recordingTime (startRecording web true true granted) = 0.
Proof.
  split; [apply reach_initial|]. split; [reflexivity|].
  exact (permission_retry_reaches_recording web initial (reach_initial web) eq_refl).
Defined.

(** When the component goes away in a state its controls reach, no
    interval timer stays alive. On the web a recorder that is recording
    is stopped, and that hands its recording to [onRecordingComplete];
    a paused recorder is left paused and nothing is handed over. On a
    device nothing is handed over, and the recording object is unloaded
    whenever a recording is running or paused. *)
Theorem unmount_releases (p : Platform) (s : State) (fin : Finalize) :
  reachable p s →
  intervals (unmount fin s).1 = [] ∧
  match p with
  | web =>
      (Recording s →
         (unmount fin s).2 = [WebFile "recording.webm" "audio/webm" [lastChunk fin]] ∧
         mediaRecorderRef (unmount fin s).1 = Some inactive) ∧
      (¬ Recording s →
         (unmount fin s).2 = [] ∧
         mediaRecorderRef (unmount fin s).1 = mediaRecorderRef s) ∧
      (Paused s → mediaRecorderRef (unmount fin s).1 = Some paused)
  | native =>
      (unmount fin s).2 = [] ∧
      (isRecording s = true → unloadsRecording s = true)
  end.
Proof.
  intros Hreach.
  pose proof (clearTimer_inv s (reachable_timer_inv p s Hreach)) as Hclr.
  destruct (reachable_refs_inv p s Hreach) as (Hchunks & Hrefs).
  split.
  - unfold unmount. destruct (mediaRecorderRef s) as [[| |]|]; cbn; exact Hclr.
  - destruct p.
    + destruct Hrefs as (_ & Hrec & Hnot). split_and!.
      * intros [Hr Hp]. specialize (Hrec Hr). rewrite Hp in Hrec.
        unfold unmount. rewrite Hrec, Hchunks. cbn. split; reflexivity.
      * intros Hn. unfold unmount.
        destruct (mediaRecorderRef s) as [[| |]|] eqn:Hm; cbn; auto.
        exfalso. destruct (isRecording s) eqn:Hr.
        -- specialize (Hrec eq_refl). destruct (isPaused s) eqn:Hp; [congruence|].
           apply Hn. split; auto.
        -- now apply Hnot.
      * intros [Hr Hp]. specialize (Hrec Hr). rewrite Hp in Hrec.
        unfold unmount. rewrite Hrec. reflexivity.
    + destruct Hrefs as (Hm & Hrec). split.
      * unfold unmount. rewrite Hm. reflexivity.
      * exact Hrec.
Qed.

Lemma unmount_releases_witness :
  let fin := mkFinalize true None None "RIFF" in
  reachable web one_second_in ∧
  intervals (unmount fin one_second_in).1 = [] ∧
  (Recording one_second_in →
     (unmount fin one_second_in).2 = [WebFile "recording.webm" "audio/webm" ["RIFF"]] ∧
     mediaRecorderRef (unmount fin one_second_in).1 = Some inactive) ∧
  (¬ Recording one_second_in →
     (unmount fin one_second_in).2 = [] ∧
     mediaRecorderRef (unmount fin one_second_in).1 = mediaRecorderRef one_second_in) ∧
  (Paused one_second_in → mediaRecorderRef (unmount fin one_second_in).1 = Some paused).
Proof.
  assert (H : reachable web one_second_in).
  { apply (reach_step web _ Tick false); [|reflexivity].
    apply (reach_step web _ (StartRecording true true) false); [|reflexivity].
    apply (reach_step web _ (RequestPermissions true) false); [|reflexivity].
    apply reach_initial. }
  split; [exact H|].
  exact (unmount_releases web one_second_in (mkFinalize true None None "RIFF") H).
Defined.

Lemma displays_below_100_minutes :
  forallb displaysExactly (seq 0 (Z.to_nat 6000)) = true.
Proof. vm_compute. reflexivity. Qed.

(** For a recording shorter than 100 minutes the time display is
    exactly five characters, minutes and seconds around a colon, it
    reads back as the elapsed seconds, and so two different durations
    never display alike. *)
Theorem formatTime_below_100_minutes (seconds : Z) :
  0 ≤ seconds < 6000 →
  String.length (formatTime seconds) = 5%nat ∧
  String.get 2 (formatTime seconds) = Some ":"%char ∧
  readTime (formatTime seconds) = seconds ∧
  ∀ other, 0 ≤ other < 6000 → formatTime other = formatTime seconds → other = seconds.
Proof.
  assert (Hall : ∀ n, 0 ≤ n < 6000 → displaysExactly (Z.to_nat n) = true).
  { intros n Hn. pose proof displays_below_100_minutes as H.
    rewrite forallb_forall in H. apply H. apply in_seq. lia. }
  assert (Hone : ∀ n, 0 ≤ n < 6000 →
            String.length (formatTime n) = 5%nat ∧
            String.get 2 (formatTime n) = Some ":"%char ∧
            readTime (formatTime n) = n).
  { intros n Hn. specialize (Hall n Hn). unfold displaysExactly in Hall.
    rewrite Z2Nat.id in Hall by lia.
    apply andb_prop in Hall as [Hall Hread]. apply andb_prop in Hall as [Hlen Hcolon].
    apply Nat.eqb_eq in Hlen. apply Z.eqb_eq in Hread.
    split; [exact Hlen|]. split; [|exact Hread].
    destruct (String.get 2 (formatTime n)) as [c|]; [|discriminate].
    apply Ascii.eqb_eq in Hcolon. congruence. }
  intros Hs. destruct (Hone seconds Hs) as (Hlen & Hcolon & Hread).
  split_and!; auto.
  intros other Ho Heq. destruct (Hone other Ho) as (_ & _ & Hread').
  rewrite Heq in Hread'. congruence.
Qed.

Lemma formatTime_below_100_minutes_witness :
  0 ≤ 125 < 6000 ∧
  String.length (formatTime 125) = 5%nat ∧
  String.get 2 (formatTime 125) = Some ":"%char ∧
  readTime (formatTime 125) = 125 ∧
  ∀ other, 0 ≤ other < 6000 → formatTime other = formatTime 125 → other = 125.
Proof.
  split; [lia|]. apply (formatTime_below_100_minutes 125). lia.
Defined.

Example formatTime_sample : formatTime 125 = "02:05" ∧ formatTime 6000 = "100:00".
Proof. split; vm_compute; reflexivity. Qed.

End RecorderCleanupProps.

(** ** More properties of the orchestrator *)
Module ExchangeMoreProps.
Import AppHandlers HistoryHandlers ExchangeSpec ExchangeMore StoreFacts.

#[local] Arguments apply : simpl never.
#[local] Arguments drive : simpl never.
#[local] Arguments driveWith : simpl never.
#[local] Arguments transcript : simpl never.
#[local] Arguments allocArray : simpl never.
#[local] Arguments writeArray : simpl never.
#[local] Arguments arrayAt : simpl never.

Lemma userTranscript_apply a s :
  App.userTranscript (app (apply a s)) =
  match a with
  | SetUserTranscript t => t
  | _ => App.userTranscript (app s)
  end.
Proof. destruct a; reflexivity. Qed.

Lemma llmResponse_apply a s :
  App.llmResponse (app (apply a s)) =
  match a with
  | SetLlmResponse t => t
  | _ => App.llmResponse (app s)
  end.
Proof. destruct a; reflexivity. Qed.

Lemma ttsAudioUrl_apply a s :
  App.ttsAudioUrl (app (apply a s)) =
  match a with
  | SetTtsAudioUrl u => u
  | _ => App.ttsAudioUrl (app s)
  end.
Proof. destruct a; reflexivity. Qed.

Lemma activePanel_apply a s :
  App.activePanel (app (apply a s)) =
  match a with
  | SetActivePanel p => p
  | _ => App.activePanel (app s)
  end.
Proof. destruct a; reflexivity. Qed.

Ltac session_simpl :=
  repeat (rewrite ?transcript_apply, ?isProcessing_apply, ?lastUsedPanel_apply,
            ?currentEmotion_apply, ?conversationId_apply, ?conversations_apply,
            ?userTranscript_apply, ?llmResponse_apply, ?ttsAudioUrl_apply,
            ?activePanel_apply; cbn).

(** In-place resolution leaves alone a list without the target id. *)
Lemma resolveAll_fresh target data (l : list Message) :
  Forall (fun m => id m ≠ target) l → resolveAll target data l = l.
Proof.
  unfold resolveAll. induction 1 as [|m l Hm _ IH]; cbn; [reflexivity|].
  rewrite IH. destruct (decide (id m = target)); congruence.
Qed.

Lemma resolve_placeholder target data (l : list Message) (ph : Message) :
  Forall (fun m => id m ≠ target) l → id ph = target →
  map (fun msg => if decide (id msg = target) then resolved data msg else msg) (l ++ [ph])
  = l ++ [resolved data ph].
Proof.
  intros Hfresh Hid. rewrite map_app. cbn.
  change (map _ l) with (resolveAll target data l).
  rewrite (resolveAll_fresh _ _ _ Hfresh).
  destruct (decide (id ph = target)); congruence.
Qed.

(** A voice exchange that succeeds on the web: the placeholder is
    replaced in place by a user message with the transcript as its text
    and the emotion fields of the reply, and one assistant message
    follows it, with the reply as its text and the object URL of the
    speech; the session shows the detected emotion and the three
    transient values; the flag is cleared and the conversation id is the
    one the session had. Earlier messages are untouched when none of
    them has the id the placeholder was given. *)
Theorem voice_exchange_succeeds_on_web
  (conv : option string) (audio : AudioData) (w : World) (s : Store)
  (data : Api.VoiceReply) (tts : Api.Response) (speech : Bytes) :
  let l := exchange w (handleVoiceMessage web conv audio) s in
  let url := objectURL (ambientAt w 4) speech in
  let mine :=
    {| id := dateNow (ambientAt w 0);
       text := Api.transcribed_text data;
       isUser := true;
       emotion := Api.detected_emotion data;
       emotionProbability := Api.emotion_probability data;
       emotionTop3 := Api.emotion_top3 data;
       audioUrl := None;
       timestamp := isoString (ambientAt w 0) |} in
  let reply :=
    {| id := dateNow (ambientAt w 4) + 1;
       text := Api.llm_response data;
       isUser := false;
       emotion := None; emotionProbability := None; emotionTop3 := None;
       audioUrl := Some url;
       timestamp := isoString (ambientAt w 4) |} in
  replySucceeds w (voiceRequest conv audio) data →
  answerAt w 3 (Fetch (speechRequest (Api.llm_response data))) = Some tts →
  Api.ok tts = true →
  answerAt w 4 (BlobOf tts) = Some speech →
  Forall (fun m => id m ≠ dateNow (ambientAt w 0)) (transcript s) →
  transcript (current l) = transcript s ++ [mine; reply] ∧
  App.currentEmotion (app (current l)) = Api.detected_emotion data ∧
  transientOf (app (current l))
  = (Api.transcribed_text data, Api.llm_response data, Some url) ∧
  App.lastUsedPanel (app (current l)) = emotion_panel ∧
  App.isProcessing (app (current l)) = false ∧
  App.conversationId (app (current l)) = App.conversationId (app s) ∧
  pending l = [].
Proof.
  intros l url mine reply (resp & Hresp & Hok & Hdata) Htts Hgood Hblob Hfresh.
  subst l url mine reply.
  unfold speechRequest in Htts.
  unfold exchange, handleVoiceMessage, transientOf. cbn.
  turn. fold (voiceRequest conv audio). rewrite Hresp. cbn. rewrite Hok. cbn.
  turn. rewrite Hdata. cbn.
  turn. rewrite Htts. cbn. unfold speechUrl. rewrite Hgood. cbn.
  turn. rewrite Hblob. cbn.
  finish_turns; session_simpl.
  all: rewrite resolve_placeholder by first [exact Hfresh | reflexivity].
  all: rewrite <- app_assoc; split_and!; reflexivity.
Qed.

Lemma voice_exchange_succeeds_on_web_witness :
  let w := goodWorld in
  let l := exchange w (handleVoiceMessage web None sampleAudio) initialStore in
  let url := objectURL (ambientAt w 4) "RIFF" in
  let mine :=
    {| id := dateNow (ambientAt w 0);
       text := Api.transcribed_text sampleReply;
       isUser := true;
       emotion := Api.detected_emotion sampleReply;
       emotionProbability := Api.emotion_probability sampleReply;
       emotionTop3 := Api.emotion_top3 sampleReply;
       audioUrl := None;
       timestamp := isoString (ambientAt w 0) |} in
  let reply :=
    {| id := dateNow (ambientAt w 4) + 1;
       text := Api.llm_response sampleReply;
       isUser := false;
       emotion := None; emotionProbability := None; emotionTop3 := None;
       audioUrl := Some url;
       timestamp := isoString (ambientAt w 4) |} in
  replySucceeds w (voiceRequest None sampleAudio) sampleReply ∧
  answerAt w 3 (Fetch (speechRequest (Api.llm_response sampleReply))) = Some ok200 ∧
  Api.ok ok200 = true ∧
  answerAt w 4 (BlobOf ok200) = Some "RIFF" ∧
  Forall (fun m => id m ≠ dateNow (ambientAt w 0)) (transcript initialStore) ∧
  transcript (current l) = transcript initialStore ++ [mine; reply] ∧
  App.currentEmotion (app (current l)) = Api.detected_emotion sampleReply ∧
  transientOf (app (current l))
  = (Api.transcribed_text sampleReply, Api.llm_response sampleReply, Some url) ∧
  App.lastUsedPanel (app (current l)) = emotion_panel ∧
  App.isProcessing (app (current l)) = false ∧
  App.conversationId (app (current l)) = App.conversationId (app initialStore) ∧
  pending l = [].
Proof.
  assert (H : replySucceeds goodWorld (voiceRequest None sampleAudio) sampleReply).
  { exists ok200. split; [reflexivity|]. split; reflexivity. }
  assert (F : Forall (fun m => id m ≠ dateNow (ambientAt goodWorld 0))
                (transcript initialStore)) by (vm_compute; constructor).
  split; [exact H|]. do 3 (split; [reflexivity|]). split; [exact F|].
  exact (voice_exchange_succeeds_on_web None sampleAudio goodWorld initialStore
           sampleReply ok200 "RIFF" H eq_refl eq_refl eq_refl F).
Defined.



(** A text exchange whose own promises settle, whatever they settle
    with, appends exactly two messages. The first is the user message
    with the submitted text: it is appended before the first promise is
    awaited, which is the text request, so it is on screen while that
    request is out. The second is one assistant message (the reply or
    the error message). The exchange leaves the detected emotion, the
    transient values and the conversation id as they were and puts the
    focus on the chat panel, so the character panel shows none of the
    transient values. *)
Theorem text_exchange_appends_two
  (platform : Platform) (conv : option string) (textMessage : string)
  (w : World) (s : Store) (settles : Query → bool) :
  let l := exchangeWith settles w (handleTextMessage platform conv textMessage) s in
  let first := exec (ambientAt w 0) (handleTextMessage platform conv textMessage) s in
  let sent :=
    {| id := dateNow (ambientAt w 0);
       text := textMessage;
       isUser := true;
       emotion := None; emotionProbability := None; emotionTop3 := None;
       audioUrl := None;
       timestamp := isoString (ambientAt w 0) |} in
  (∀ q, ¬ refreshQuery q → settles q = true) →
  ((∃ before k,
      log first = before ++ [Requested (Fetch (Api.PostText textMessage conv))] ∧
      (∀ q, ¬ In (Requested q) before) ∧
      In (Did (AppendMessage sent)) before ∧
      suspended first = [mkTask (Fetch (Api.PostText textMessage conv)) k]) ∧
   transcript (store first) = transcript s ++ [sent]) ∧
  (∃ answer,
     appended (history_log l) = [sent; answer] ∧
     transcript (current l) = transcript s ++ [sent; answer] ∧
     isUser answer = false) ∧
  App.currentEmotion (app (current l)) = App.currentEmotion (app s) ∧
  transientOf (app (current l)) = transientOf (app s) ∧
  App.conversationId (app (current l)) = App.conversationId (app s) ∧
  App.lastUsedPanel (app (current l)) = chat_panel ∧
  App.isProcessing (app (current l)) = false ∧
  Client.rendered emotion_panel (current l) = Client.nothing.
Proof.
  intros l first sent Hsettle. subst l first sent.
  assert (Hpanel : ∀ st, App.lastUsedPanel (app st) = chat_panel →
            Client.rendered emotion_panel st = Client.nothing).
  { intros st H. unfold Client.rendered, Client.emotionCharacterPanelProps. cbn.
    rewrite H. reflexivity. }
  split.
  { cbn. split; [|session_simpl; reflexivity].
    eexists [_; _; _], _. split; [reflexivity|]. split; [|split; [|reflexivity]].
    - intros q [H|[H|[H|[]]]]; discriminate.
    - cbn. auto. }
  remember (exchangeWith settles w (handleTextMessage platform conv textMessage) s)
    as l eqn:Hl.
  revert Hl.
  unfold exchangeWith, handleTextMessage, speechUrl, transientOf. cbn.
  finish_turnsWith; intros ->; cbn.
  all: split_and!; [eexists; split_and! | ..]; session_simpl; rewrite <- ?app_assoc;
    try reflexivity.
  all: apply Hpanel; session_simpl; reflexivity.
Qed.

Lemma text_exchange_appends_two_witness :
  let w := goodWorld in
  let l := exchangeWith (fun _ => true) w (handleTextMessage native None "오늘 너무 힘들어요")
             initialStore in
  let first := exec (ambientAt w 0) (handleTextMessage native None "오늘 너무 힘들어요")
                 initialStore in
  let sent :=
    {| id := dateNow (ambientAt w 0);
       text := "오늘 너무 힘들어요";
       isUser := true;
       emotion := None; emotionProbability := None; emotionTop3 := None;
       audioUrl := None;
       timestamp := isoString (ambientAt w 0) |} in
  (∀ q, ¬ refreshQuery q → (fun _ : Query => true) q = true) ∧
  ((∃ before k,
      log first = before ++ [Requested (Fetch (Api.PostText "오늘 너무 힘들어요" None))] ∧
      (∀ q, ¬ In (Requested q) before) ∧
      In (Did (AppendMessage sent)) before ∧
      suspended first = [mkTask (Fetch (Api.PostText "오늘 너무 힘들어요" None)) k]) ∧
   transcript (store first) = transcript initialStore ++ [sent]) ∧
  (∃ answer,
     appended (history_log l) = [sent; answer] ∧
     transcript (current l) = transcript initialStore ++ [sent; answer] ∧
     isUser answer = false) ∧
  App.currentEmotion (app (current l)) = App.currentEmotion (app initialStore) ∧
  transientOf (app (current l)) = transientOf (app initialStore) ∧
  App.conversationId (app (current l)) = App.conversationId (app initialStore) ∧
  App.lastUsedPanel (app (current l)) = chat_panel ∧
  App.isProcessing (app (current l)) = false ∧
  Client.rendered emotion_panel (current l) = Client.nothing.
Proof.
  split; [reflexivity|].
  exact (text_exchange_appends_two native None "오늘 너무 힘들어요" goodWorld initialStore
           (fun _ => true) (fun _ _ => eq_refl)).
Defined.

(** Whatever the world answers, an exchange issues at most three
    requests, none of them twice and always in the same order: the
    reply request, then one speech request, then the refresh of the
    history list for 50 summaries; there is no refresh without a speech
    request before it. *)
Theorem exchange_requests_in_order
  (platform : Platform) (conv : option string) (sub : Submission)
  (w : World) (s : Store) :
  orderly (requestOf conv sub)
    (requests (history_log (exchange w (handlerOf platform conv sub) s))).
Proof.
  destruct sub as [audio|textMessage];
    unfold exchange, handlerOf, handleVoiceMessage, handleTextMessage, speechUrl,
      orderly, requestOf, voiceRequest, textRequest; cbn.
  - finish_turns.
    all: first [ left; reflexivity
               | right; eexists; left; reflexivity
               | right; eexists; right; reflexivity ].
  - finish_turns.
    all: first [ left; reflexivity
               | right; eexists; left; reflexivity
               | right; eexists; right; reflexivity ].
Qed.

(** Once the reply of a voice exchange has been read, and however the
    promises that follow settle: every message that has the id given to
    the placeholder - the placeholder itself and any earlier message
    whose id collides with it - has the transcript as its text and the
    emotion, probability and top-3 fields of the reply, and keeps its
    id, side, audio and timestamp; every other message is as it was and
    stays in its place; and exactly one assistant message has been
    added after them. *)
Theorem reply_resolves_in_place
  (platform : Platform) (conv : option string) (audio : AudioData)
  (w : World) (s : Store) (data : Api.VoiceReply) (settles : Query → bool) :
  let l := exchangeWith settles w (handleVoiceMessage platform conv audio) s in
  let now := dateNow (ambientAt w 0) in
  let transcribed (m : Message) : Message :=
    {| id := id m;
       text := Api.transcribed_text data;
       isUser := isUser m;
       emotion := Api.detected_emotion data;
       emotionProbability := Api.emotion_probability data;
       emotionTop3 := Api.emotion_top3 data;
       audioUrl := audioUrl m;
       timestamp := timestamp m |} in
  let mine :=
    {| id := now;
       text := Api.transcribed_text data;
       isUser := true;
       emotion := Api.detected_emotion data;
       emotionProbability := Api.emotion_probability data;
       emotionTop3 := Api.emotion_top3 data;
       audioUrl := None;
       timestamp := isoString (ambientAt w 0) |} in
  (∀ q, ¬ refreshQuery q → settles q = true) →
  replySucceeds w (voiceRequest conv audio) data →
  (∃ answer,
     transcript (current l)
     = map (fun m => if decide (id m = now) then transcribed m else m) (transcript s)
       ++ [mine; answer] ∧
     isUser answer = false) ∧
  length (transcript (current l)) = (length (transcript s) + 2)%nat ∧
  ∀ i m, transcript s !! i = Some m →
    transcript (current l) !! i
    = Some (if decide (id m = now) then transcribed m else m).
Proof.
  intros l now transcribed mine Hsettle (resp & Hresp & Hok & Hdata).
  subst l now mine.
  assert (Hshape : ∃ answer,
    transcript (current (exchangeWith settles w (handleVoiceMessage platform conv audio) s))
    = map (fun m => if decide (id m = dateNow (ambientAt w 0)) then transcribed m else m)
        (transcript s)
      ++ [{| id := dateNow (ambientAt w 0);
             text := Api.transcribed_text data;
             isUser := true;
             emotion := Api.detected_emotion data;
             emotionProbability := Api.emotion_probability data;
             emotionTop3 := Api.emotion_top3 data;
             audioUrl := None;
             timestamp := isoString (ambientAt w 0) |}; answer]
    ∧ isUser answer = false).
  { subst transcribed.
    remember (exchangeWith settles w (handleVoiceMessage platform conv audio) s)
      as l eqn:Hl.
    revert Hl.
    unfold exchangeWith, handleVoiceMessage, speechUrl. cbn.
    turnWith. fold (voiceRequest conv audio). rewrite Hresp. cbn. rewrite Hok. cbn.
    turnWith. rewrite Hdata. cbn.
    finish_turnsWith; intros ->; cbn; session_simpl.
    all: rewrite map_app; cbn.
    all: destruct (decide (dateNow (ambientAt w 0) = dateNow (ambientAt w 0)));
      [|congruence].
    all: rewrite <- app_assoc; eexists; split; reflexivity. }
  destruct Hshape as (answer & Ht & Hanswer). split; [eauto|].
  rewrite Ht. split.
  - rewrite length_app, length_map. reflexivity.
  - intros i m Hi. rewrite lookup_app_l.
    + rewrite list_lookup_fmap, Hi. reflexivity.
    + rewrite length_map. eapply lookup_lt_Some; eauto.
Qed.

Lemma reply_resolves_in_place_witness :
  let w := speechRejected in
  let data := sampleReply in
  let l := exchangeWith (fun _ => true) w (handleVoiceMessage web None sampleAudio)
             activeSession in
  let now := dateNow (ambientAt w 0) in
  let transcribed (m : Message) : Message :=
    {| id := id m;
       text := Api.transcribed_text data;
       isUser := isUser m;
       emotion := Api.detected_emotion data;
       emotionProbability := Api.emotion_probability data;
       emotionTop3 := Api.emotion_top3 data;
       audioUrl := audioUrl m;
       timestamp := timestamp m |} in
  let mine :=
    {| id := now;
       text := Api.transcribed_text data;
       isUser := true;
       emotion := Api.detected_emotion data;
       emotionProbability := Api.emotion_probability data;
       emotionTop3 := Api.emotion_top3 data;
       audioUrl := None;
       timestamp := isoString (ambientAt w 0) |} in
  (∀ q, ¬ refreshQuery q → (fun _ : Query => true) q = true) ∧
  replySucceeds w (voiceRequest None sampleAudio) data ∧
  (∃ answer,
     transcript (current l)
     = map (fun m => if decide (id m = now) then transcribed m else m)
         (transcript activeSession)
       ++ [mine; answer] ∧
     isUser answer = false) ∧
  length (transcript (current l)) = (length (transcript activeSession) + 2)%nat ∧
  ∀ i m, transcript activeSession !! i = Some m →
    transcript (current l) !! i
    = Some (if decide (id m = now) then transcribed m else m).
Proof.
  assert (H : replySucceeds speechRejected (voiceRequest None sampleAudio) sampleReply).
  { exists ok200. split; [reflexivity|]. split; reflexivity. }
  split; [reflexivity|]. split; [exact H|].
  exact (reply_resolves_in_place web None sampleAudio speechRejected activeSession
           sampleReply (fun _ => true) (fun _ _ => eq_refl) H).
Defined.

(** In the sample session the first message has the id the placeholder
    is given: the reply rewrites it too. *)
Example colliding_id_sample :
  let l := exchangeWith (fun _ => true) speechRejected
             (handleVoiceMessage web None sampleAudio) activeSession in
  map id (transcript activeSession) = [1700000000000; 1700000000002] ∧
  dateNow (ambientAt speechRejected 0) = 1700000000000 ∧
  map text (transcript activeSession) = ["오늘 너무 힘들어요"; "많이 힘드셨겠어요."] ∧
  map emotion (transcript activeSession) = [None; None] ∧
  map emotion (transcript (current l)) = [Some "sad"; None; Some "sad"; None].
Proof. cbn zeta. split_and!; vm_compute; reflexivity. Qed.

(** There is no cancellation: when the user starts a new conversation
    while an exchange is in flight, the transcript is emptied at once,
    the exchange runs on with the request it had issued, and when it
    ends its assistant message is the only message of the new
    conversation, under the new id. *)
Theorem new_conversation_does_not_cancel
  (platform : Platform) (conv : option string) (sub : Submission)
  (w : World) (s : Store) :
  let started :=
    invoke (ambientAt w 0) (handlerOf platform conv sub) (mkLoop s [] []) in
  let cleared := invoke (ambientAt w 1) startNewConversation started in
  let l := drive 8 w 2 cleared in
  length (pending started) = 1%nat ∧
  transcript (current cleared) = [] ∧
  length (pending cleared) = 1%nat ∧
  (∃ answer, transcript (current l) = [answer] ∧ isUser answer = false) ∧
  head (requests (history_log l)) = Some (requestOf conv sub) ∧
  App.conversationId (app (current l))
  = Some ("conv_" +:+ pretty (dateNow (ambientAt w 1)) +:+ "_"
          +:+ randomSuffix (ambientAt w 1)) ∧
  pending l = [].
Proof.
  destruct sub as [audio|textMessage];
    unfold handlerOf, handleVoiceMessage, handleTextMessage, startNewConversation,
      speechUrl, requestOf, voiceRequest, textRequest, invoke, absorb; cbn.
  - split; [reflexivity|]. split; [session_simpl; apply arrayAt_alloc|].
    split; [reflexivity|].
    finish_turns.
    all: split_and!; [eexists; split | ..]; session_simpl; rewrite ?arrayAt_alloc;
      reflexivity.
  - split; [reflexivity|]. split; [session_simpl; apply arrayAt_alloc|].
    split; [reflexivity|].
    finish_turns.
    all: split_and!; [eexists; split | ..]; session_simpl; rewrite ?arrayAt_alloc;
      reflexivity.
Qed.

(** The emotion detected for a voice message is stored but not shown:
    whatever the world answers, the two messages an exchange adds to
    the transcript - the user's, with or without its emotion fields,
    and the assistant's - display neither an emotion badge nor the
    emotion details, and only the assistant's can show the audio
    button. *)
Theorem exchange_messages_hide_emotion
  (platform : Platform) (conv : option string) (sub : Submission)
  (w : World) (s : Store) :
  let l := exchange w (handlerOf platform conv sub) s in
  ∃ earlier mine answer,
    transcript (current l) = earlier ++ [mine; answer] ∧
    length earlier = length (transcript s) ∧
    isUser mine = true ∧ isUser answer = false ∧
    ChatMessage.hidesEmotion mine = true ∧
    ChatMessage.hidesEmotion answer = true ∧
    ChatMessage.showsAudioButton mine = false ∧
    ChatMessage.showsAudioButton answer = truthy (audioUrl answer).
Proof.
  destruct sub as [audio|textMessage];
    unfold exchange, handlerOf, handleVoiceMessage, handleTextMessage, speechUrl; cbn.
  - finish_turns; session_simpl; rewrite ?map_app; cbn.
    all: repeat match goal with
         | |- context [decide (?x = ?x)] => destruct (decide (x = x)); [|congruence]
         end.
    all: rewrite <- ?app_assoc; cbn.
    all: eexists _, _, _; split; [reflexivity|]; rewrite ?length_map;
      split_and!; reflexivity.
  - finish_turns; session_simpl.
    all: rewrite <- ?app_assoc; cbn.
    all: eexists _, _, _; split; [reflexivity|]; split_and!; reflexivity.
Qed.

End ExchangeMoreProps.

(** ** Properties of the history list, the text input and the dates *)
Module HistoryProps.
Import AppHandlers HistoryHandlers ExchangeSpec ExchangeMore HistorySpec StoreFacts.

#[local] Arguments apply : simpl never.
#[local] Arguments drive : simpl never.
#[local] Arguments transcript : simpl never.
#[local] Arguments allocArray : simpl never.
#[local] Arguments writeArray : simpl never.
#[local] Arguments arrayAt : simpl never.

Lemma isLoading_apply a s :
  ConversationHistory.isLoading (history (apply a s)) =
  match a with
  | SetIsLoading b => b
  | _ => ConversationHistory.isLoading (history s)
  end.
Proof. destruct a; reflexivity. Qed.

(** A load that fails leaves the transcript and the session as they
    were, with one exception: a body that is read but holds no array of
    messages fails after the conversation id was set, so the session is
    left under the id of the conversation that was not loaded, with the
    transcript and the emotion of the previous one. The user is told
    with one alert, except for an answer with a non-success status,
    which is dropped without any notice. *)
Theorem failed_load_keeps_transcript
  (convId : string) (w : World) (s : Store) (failure : LoadFailure) :
  let l := exchange w (loadConversation convId) s in
  loadFailure w convId = Some failure →
  transcript (current l) = transcript s ∧
  App.currentEmotion (app (current l)) = App.currentEmotion (app s) ∧
  App.conversationId (app (current l))
  = match failure with
    | LoadMalformed => Some convId
    | _ => App.conversationId (app s)
    end ∧
  (failure ≠ LoadMalformed → app (current l) = app s) ∧
  alerts (history_log l)
  = match failure with
    | LoadRefused => []
    | _ => ["대화를 불러오는 중 오류가 발생했습니다."]
    end ∧
  requests (history_log l) = [Api.GetConversation convId] ∧
  pending l = [].
Proof.
  intros l Hfail. subst l. unfold loadFailure in Hfail.
  unfold exchange, loadConversation, invoke, absorb. cbn.
  turn.
  destruct (answerAt w 1 (Fetch (Api.GetConversation convId))) as [resp|]; cbn.
  - destruct (Api.ok resp); cbn.
    + turn.
      destruct (answerAt w 2 (JsonConversation resp)) as [data|]; cbn.
      * destruct (Api.messages data); [discriminate|].
        injection Hfail as <-. cbn. turn. store_simpl.
        split_and!; try reflexivity. congruence.
      * injection Hfail as <-. cbn. turn. app_simpl. store_simpl.
        split_and!; reflexivity.
    + injection Hfail as <-. turn. split_and!; reflexivity.
  - injection Hfail as <-. turn. app_simpl. store_simpl. split_and!; reflexivity.
Qed.

Lemma failed_load_keeps_transcript_witness :
  let l := exchange malformed (loadConversation "conv_2") activeSession in
  loadFailure malformed "conv_2" = Some LoadMalformed ∧
  transcript (current l) = transcript activeSession ∧
  App.currentEmotion (app (current l)) = App.currentEmotion (app activeSession) ∧
  App.conversationId (app (current l)) = Some "conv_2" ∧
  (LoadMalformed ≠ LoadMalformed → app (current l) = app activeSession) ∧
  alerts (history_log l) = ["대화를 불러오는 중 오류가 발생했습니다."] ∧
  requests (history_log l) = [Api.GetConversation "conv_2"] ∧
  pending l = [].
Proof.
  split; [reflexivity|].
  exact (failed_load_keeps_transcript "conv_2" malformed activeSession LoadMalformed eq_refl).
Defined.

(** A load answered with status 500 changes nothing and tells nothing. *)
Example refused_load_sample :
  let l := exchange failing (loadConversation "conv_2") activeSession in
  loadFailure failing "conv_2" = Some LoadRefused ∧
  current l = activeSession ∧ alerts (history_log l) = [].
Proof. cbn zeta. split_and!; vm_compute; reflexivity. Qed.

(** A refresh of the history list issues one request, for 50
    summaries. The list becomes the summaries of the answer, in the
    order the service sent them, when the answer is successful and
    readable, and stays as it was otherwise, without any alert; in every
    case the loading flag is cleared at the end and the session is not
    touched. *)
Theorem history_refresh_keeps_stale_list (w : World) (s : Store) :
  let l := exchange w loadConversations s in
  ConversationHistory.conversations (history (current l))
  = refreshed w (ConversationHistory.conversations (history s)) ∧
  ConversationHistory.isLoading (history (current l)) = false ∧
  requests (history_log l) = [Api.GetConversations 50] ∧
  alerts (history_log l) = [] ∧
  app (current l) = app s ∧
  pending l = [].
Proof.
  unfold exchange, loadConversations, refreshed, invoke, absorb. cbn.
  finish_turns.
  all: rewrite ?isLoading_apply; cbn; app_simpl; store_simpl;
    rewrite ?isLoading_apply; cbn; app_simpl.
  all: simplify_eq; split_and!; reflexivity.
Qed.

(** A delete the user does not confirm issues no request at all and
    changes nothing. *)
Theorem unconfirmed_delete_does_nothing
  (conversations : list Api.Summary) (currentId : option string) (target : string)
  (w : World) (s : Store) :
  let l := exchange w
             (deleteConversation conversations currentId startNewConversation target) s in
  confirmed (ambientAt w 0) = false →
  awaited (history_log l) = [] ∧
  alerts (history_log l) = [] ∧
  history (current l) = history s ∧
  app (current l) = app s ∧
  transcript (current l) = transcript s ∧
  pending l = [].
Proof.
  intros l Hno. subst l.
  unfold exchange, deleteConversation, invoke, absorb. cbn. rewrite Hno. cbn.
  turn. split_and!; reflexivity.
Qed.

Lemma unconfirmed_delete_does_nothing_witness :
  let l := exchange declining
             (deleteConversation [firstSummary; secondSummary] (Some "conv_1")
                startNewConversation "conv_1") activeSession in
  confirmed (ambientAt declining 0) = false ∧
  awaited (history_log l) = [] ∧
  alerts (history_log l) = [] ∧
  history (current l) = history activeSession ∧
  app (current l) = app activeSession ∧
  transcript (current l) = transcript activeSession ∧
  pending l = [].
Proof.
  split; [reflexivity|].
  exact (unconfirmed_delete_does_nothing [firstSummary; secondSummary] (Some "conv_1")
           "conv_1" declining activeSession eq_refl).
Defined.

(** A confirmed delete that is rejected or answered with a non-success
    status removes nothing: the list and the session stay as they were,
    also when the deleted conversation is the active one, exactly one
    request was issued, and the user gets exactly one alert. *)
Theorem failed_delete_changes_nothing
  (conversations : list Api.Summary) (currentId : option string) (target : string)
  (w : World) (s : Store) :
  let l := exchange w
             (deleteConversation conversations currentId startNewConversation target) s in
  confirmed (ambientAt w 0) = true →
  deleteFails w target →
  history (current l) = history s ∧
  app (current l) = app s ∧
  transcript (current l) = transcript s ∧
  requests (history_log l) = [Api.DeleteConversation target] ∧
  length (alerts (history_log l)) = 1%nat ∧
  pending l = [].
Proof.
  intros l Hyes Hfail. subst l. unfold deleteFails in Hfail.
  unfold exchange, deleteConversation, invoke, absorb. cbn. rewrite Hyes. cbn.
  turn.
  destruct (answerAt w 1 (Fetch (Api.DeleteConversation target))) as [resp|]; cbn.
  - rewrite Hfail. cbn. turn.
    destruct (answerAt w 2 (TextOf resp)); cbn; turn; split_and!; reflexivity.
  - turn. split_and!; reflexivity.
Qed.

Lemma failed_delete_changes_nothing_witness :
  let l := exchange failing
             (deleteConversation [firstSummary; secondSummary] (Some "conv_1")
                startNewConversation "conv_1") activeSession in
  confirmed (ambientAt failing 0) = true ∧
  deleteFails failing "conv_1" ∧
  history (current l) = history activeSession ∧
  app (current l) = app activeSession ∧
  transcript (current l) = transcript activeSession ∧
  requests (history_log l) = [Api.DeleteConversation "conv_1"] ∧
  length (alerts (history_log l)) = 1%nat ∧
  pending l = [].
Proof.
  split; [reflexivity|]. split; [reflexivity|].
  exact (failed_delete_changes_nothing [firstSummary; secondSummary] (Some "conv_1")
           "conv_1" failing activeSession eq_refl eq_refl).
Defined.

End HistoryProps.

(** ** The text input of the chat screen *)
Module TextInputProps.
Import Client ClientSpec ExchangeSpec ExchangeMore TextInputSpec AppHandlers StoreFacts.

#[local] Arguments isSpace : simpl never.
#[local] Arguments apply : simpl never.
#[local] Arguments transcript : simpl never.

Lemma trimStart_blank s : blank s = true → trimStart s = "".
Proof.
  induction s as [|a s IH]; cbn; [reflexivity|].
  intros H. apply andb_prop in H as [Ha Hs]. rewrite Ha. auto.
Qed.


Lemma trimStart_not_blank s : blank s = false → blank (trimStart s) = false.
Proof.
  induction s as [|a s IH]; cbn; [discriminate|].
  destruct (isSpace a) eqn:Ha; cbn.
  - exact IH.
  - intros _. rewrite Ha. reflexivity.
Qed.

Lemma trimEnd_empty s : trimEnd s = "" ↔ blank s = true.
Proof.
  induction s as [|a s IH]; cbn; [tauto|].
  destruct (trimEnd s) as [|b rest] eqn:Hs.
  - destruct (isSpace a); cbn.
    + split; [intros _; apply IH; reflexivity|reflexivity].
    + split; discriminate.
  - split; [discriminate|]. intros H. apply andb_prop in H as [_ H].
    apply IH in H. discriminate.
Qed.




Lemma trim_empty s : trim s = "" ↔ blank s = true.
Proof.
  unfold trim. rewrite trimEnd_empty. split.
  - intros H. destruct (blank s) eqn:Hb; [reflexivity|].
    rewrite (trimStart_not_blank s Hb) in H. discriminate.
  - intros H. rewrite (trimStart_blank s H). reflexivity.
Qed.


(** An input that holds nothing but white space is never submitted:
    pressing send changes nothing, and the send control is not even
    offered. *)
Theorem blank_input_is_not_submitted
  (wide : bool) (platform : Platform) (amb : Ambient) (c : State) :
  blank (textInput c) = true →
  step platform amb c PressSend = c ∧ enabled wide c PressSend = false.
Proof.
  intros Hblank. apply trim_empty in Hblank.
  unfold step, handleTextSubmit, enabled. rewrite Hblank. cbn.
  rewrite andb_false_r. split; reflexivity.
Qed.

Lemma blank_input_is_not_submitted_witness :
  blank (textInput typedBlank) = true ∧
  step web (sampleAmbient 2) typedBlank PressSend = typedBlank ∧
  enabled false typedBlank PressSend = false.
Proof.
  split; [reflexivity|].
  exact (blank_input_is_not_submitted false web (sampleAmbient 2) typedBlank eq_refl).
Defined.



End TextInputProps.

(** ** The dates of the history list *)
Module RelativeDateProps.
Import RelativeDate.

(** [formatDate] picks its text by the age of the date: under a minute
    - dates in the future included - it says just now; then whole
    minutes from 1 to 59, whole hours from 1 to 23 and whole days from
    1 to 6, each rounded down; from seven days on, and for a date that
    cannot be parsed, it falls back to the locale's date. *)
Theorem formatDate_ranges (now : Z) (date : option Z) :
  match date with
  | None => formatDate now date = LocaleDate
  | Some d =>
      match formatDate now date with
      | JustNow => (now - d < 60000)%Z
      | MinutesAgo n =>
          (1 ≤ n ≤ 59)%Z ∧ (60000 * n ≤ now - d < 60000 * (n + 1))%Z
      | HoursAgo n =>
          (1 ≤ n ≤ 23)%Z ∧ (3600000 * n ≤ now - d < 3600000 * (n + 1))%Z
      | DaysAgo n =>
          (1 ≤ n ≤ 6)%Z ∧ (86400000 * n ≤ now - d < 86400000 * (n + 1))%Z
      | LocaleDate => (7 * 86400000 ≤ now - d)%Z
      end
  end.
Proof.
  destruct date as [d|]; [|reflexivity].
  unfold formatDate. cbn zeta.
  pose proof (Z.div_mod (now - d) 60000 ltac:(lia)).
  pose proof (Z.mod_pos_bound (now - d) 60000 ltac:(lia)).
  pose proof (Z.div_mod (now - d) 3600000 ltac:(lia)).
  pose proof (Z.mod_pos_bound (now - d) 3600000 ltac:(lia)).
  pose proof (Z.div_mod (now - d) 86400000 ltac:(lia)).
  pose proof (Z.mod_pos_bound (now - d) 86400000 ltac:(lia)).
  destruct (Z.ltb_spec ((now - d) `div` 60000) 1); [lia|].
  destruct (Z.ltb_spec ((now - d) `div` 60000) 60); [lia|].
  destruct (Z.ltb_spec ((now - d) `div` 3600000) 24); [lia|].
  destruct (Z.ltb_spec ((now - d) `div` 86400000) 7); lia.
Qed.

End RelativeDateProps.

(** ** Playback of a message's audio *)
Module PlaybackProps.
Import ChatMessage.

Lemma exclusive_step m p e :
  exclusive p → possible p e = true → exclusive (playStep m p e).
Proof.
  unfold exclusive. destruct p as [playing pending n]. cbn.
  destruct e as [|[|]|]; cbn; unfold playAudio; cbn.
  - destruct playing; cbn; rewrite ?andb_false_r; cbn; auto.
    destruct (truthy (audioUrl m)); cbn; intuition.
  - intros H ->. destruct playing; intuition (subst; auto; congruence).
  - intros H ->. destruct playing; intuition (subst; auto; congruence).
  - intros H Hn. apply negb_true_iff, Nat.eqb_neq in Hn.
    destruct playing; intuition (subst; cbn; auto; congruence).
Qed.

(** However the audio button of a message is pressed and however its
    sounds load, fail and finish, at most one sound of the message is
    loaded at any time, none is loaded or awaited unless the message
    counts as playing, and a press while it plays changes nothing. *)
Theorem playback_is_exclusive (m : Message) (es : list PlayEvent) :
  allPossible m silent es = true →
  exclusive (playAll m silent es) ∧
  (loaded (playAll m silent es) ≤ 1)%nat ∧
  (isPlayingAudio (playAll m silent es) = true →
   playStep m (playAll m silent es) Press = playAll m silent es).
Proof.
  assert (Hgen : ∀ p, exclusive p → allPossible m p es = true → exclusive (playAll m p es)).
  { induction es as [|e es IH]; intros p Hex Hall; [exact Hex|].
    cbn in Hall. apply andb_prop in Hall as [He Hrest].
    cbn. apply IH; [|exact Hrest]. now apply exclusive_step. }
  intros Hall.
  assert (Hstart : exclusive silent) by (split; reflexivity).
  specialize (Hgen silent Hstart Hall). split; [exact Hgen|]. split.
  - unfold exclusive in Hgen.
    destruct (isPlayingAudio (playAll m silent es)); intuition lia.
  - intros Hplaying. cbn. unfold playAudio. rewrite Hplaying, andb_false_r.
    reflexivity.
Qed.

Lemma playback_is_exclusive_witness :
  let m := AppHandlers.assistantMessage 1 "2023-11-14T22:13:21.000Z" "많이 힘드셨겠어요."
             (Some "blob:reply") in
  let es := [Press; Press; Created true; Press; Finished; Press; Created false] in
  allPossible m silent es = true ∧
  exclusive (playAll m silent es) ∧
  (loaded (playAll m silent es) ≤ 1)%nat ∧
  (isPlayingAudio (playAll m silent es) = true →
   playStep m (playAll m silent es) Press = playAll m silent es).
Proof.
  split; [reflexivity|].
  exact (playback_is_exclusive
           (AppHandlers.assistantMessage 1 "2023-11-14T22:13:21.000Z" "많이 힘드셨겠어요."
              (Some "blob:reply"))
           [Press; Press; Created true; Press; Finished; Press; Created false] eq_refl).
Defined.

End PlaybackProps.
